(** * Property-Search: the data-aggregation services, embedded and verified

    A shallow embedding of the service layer of the dashboard
    ([utils/data_fetcher.py], [services/location_service.py],
    [services/crime_service.py], [services/flood_service.py],
    [services/property_service.py]) together with the properties its
    specification states about it.

    Conventions of the embedding:
    - Python floats are modelled by exact rationals [Q]; Python ints by [Z].
    - A Python value of unknown shape (a decoded JSON body, a dict built by
      the code) is a [json] tree; dicts are association lists in insertion
      order.
    - A Python call that may raise is a [res]: [Ok v] for a normal return,
      [Raise e] for an exception that leaves the function.
    - Network access is an explicit oracle argument; where a property is
      about the requests and sleeps a function performs, they are returned
      as a trace. *)

From Stdlib Require Import ZArith QArith Qround Bool List Ascii String Lia Lqa.
From stdpp Require Import base option list strings pretty gmap.
Import ListNotations.

Open Scope string_scope.
Open Scope list_scope.
Open Scope Z_scope.

(** ** Python values *)

#[local] Set Warnings "-register-all".

Inductive json : Type :=
| JNull
| JBool (b : bool)
| JNum (q : Q)
| JStr (s : string)
| JList (l : list json)
| JDict (d : list (string * json)).

(** Normal return or escaping exception (the payload is [str(e)]). *)
Inductive res (A : Type) : Type :=
| Ok (a : A)
| Raise (e : string).
Arguments Ok {A} a.
Arguments Raise {A} e.

Definition res_bind {A B} (m : res A) (k : A -> res B) : res B :=
  match m with
  | Ok a => k a
  | Raise e => Raise e
  end.

Notation "x <- m ;;; k" := (res_bind m (fun x => k))
  (at level 100, m at next level, right associativity).

(** [d.get(k)] / [k in d] on a dict body. *)
Fixpoint dict_get (k : string) (d : list (string * json)) : option json :=
  match d with
  | [] => None
  | (k', v) :: d' => if String.eqb k k' then Some v else dict_get k d'
  end.

Definition dict_has (k : string) (d : list (string * json)) : bool :=
  match dict_get k d with Some _ => true | None => false end.

(** [d.get(k)] with Python's default [None]. *)
Definition dict_get_none (k : string) (d : list (string * json)) : json :=
  match dict_get k d with Some v => v | None => JNull end.

(** [isinstance(v, dict) and "error" in v]. *)
Definition is_error_dict (v : json) : bool :=
  match v with
  | JDict d => dict_has "error" d
  | _ => false
  end.

Fixpoint is_substring (needle hay : string) : bool :=
  String.prefix needle hay ||
  match hay with
  | EmptyString => false
  | String _ hay' => is_substring needle hay'
  end.

(** [k in v] for a string [k]: key of a dict, element of a list,
    substring of a string; [TypeError] on anything else. *)
Definition py_in (k : string) (v : json) : res bool :=
  match v with
  | JDict d => Ok (dict_has k d)
  | JList l =>
      Ok (existsb (fun e => match e with
                            | JStr s => String.eqb s k
                            | _ => false
                            end) l)
  | JStr s => Ok (is_substring k s)
  | _ => Raise "TypeError: argument is not iterable"
  end.

(** [v[k]] for a string [k]. *)
Definition py_getitem (k : string) (v : json) : res json :=
  match v with
  | JDict d =>
      match dict_get k d with
      | Some x => Ok x
      | None => Raise ("KeyError: " +:+ k)
      end
  | _ => Raise "TypeError: indices must be integers"
  end.

(** [v.get(k, default)]: only dicts have the method. *)
Definition py_get (k : string) (default : json) (v : json) : res json :=
  match v with
  | JDict d =>
      match dict_get k d with
      | Some x => Ok x
      | None => Ok default
      end
  | _ => Raise "AttributeError: object has no attribute 'get'"
  end.

(** What iterating over [v] yields ([for x in v], [l.extend(v)]): the
    elements of a list, the keys of a dict, the characters of a string;
    other values are not iterable. *)
Definition iter_items (v : json) : res (list json) :=
  match v with
  | JList l => Ok l
  | JDict d => Ok (map (fun kv => JStr (fst kv)) d)
  | JStr s => Ok (map (fun c => JStr (String c EmptyString))
                    (list_ascii_of_string s))
  | _ => Raise "TypeError: object is not iterable"
  end.

(** Truth value of [v] in a condition. *)
Definition truthy (v : json) : bool :=
  match v with
  | JNull => false
  | JBool b => b
  | JNum q => negb (Qeq_bool q 0)
  | JStr s => negb (String.eqb s "")
  | JList l => match l with [] => false | _ => true end
  | JDict d => match d with [] => false | _ => true end
  end.

(** [len(v)] *)
Definition py_len (v : json) : res Z :=
  match v with
  | JList l => Ok (Z.of_nat (length l))
  | JDict d => Ok (Z.of_nat (length d))
  | JStr s => Ok (Z.of_nat (String.length s))
  | _ => Raise "TypeError: object has no len()"
  end.

(** Comparisons on rationals as booleans. *)
Definition Qlt_bool (a b : Q) : bool := negb (Qle_bool b a).

(** Python's two-argument [min]/[max]: the first argument unless the
    second is strictly smaller (resp. larger). *)
Definition py_min (a b : Q) : Q := if Qlt_bool b a then b else a.
Definition py_max (a b : Q) : Q := if Qlt_bool a b then b else a.

(** * utils/data_fetcher.py *)

Module DataFetcher.

(** The [Retry-After] header of a response as [int(...)] reads it:
    missing (the default [retry_delay * 2] is used), an integer literal,
    or text [int] rejects with [ValueError] (an HTTP date, say). *)
Inductive retry_after : Type :=
| RetryAfterAbsent
| RetryAfterInt (secs : Z)
| RetryAfterNotInt.

(** What the code reads of a [requests.Response]; [body] is the result of
    [response.json()], which raises when the body is not JSON. *)
Record response : Type := Response {
  status_code : Z;
  retry_after_header : retry_after;
  text : string;
  body : res json
}.

(** The result of one [requests.get(..., timeout=10)]. *)
Inductive get_result : Type :=
| Responded (r : response)
| TimedOut
| RequestFailed (msg : string).

(** The network: what the attempt numbered [i] (from 0) of a call gets. *)
Definition network : Type := nat -> get_result.

Inductive effect : Type :=
| EGet (attempt : nat)
| ESleep (secs : Z).

(** The exit a call of [make_request] takes. *)
Inductive outcome : Type :=
| ReturnedBody (j : json)
| ReturnedStatusError (code : Z) (details : string)
| ReturnedTimedOut
| ReturnedRequestFailed (msg : string)
| ReturnedMaxRetries
| Raised (e : string).

(** [int(response.headers.get('Retry-After', retry_delay * 2))] *)
Definition retry_wait (retry_delay : Z) (h : retry_after) : res Z :=
  match h with
  | RetryAfterAbsent => Ok (retry_delay * 2)
  | RetryAfterInt secs => Ok secs
  | RetryAfterNotInt => Raise "invalid literal for int() with base 10"
  end.

(** [time.sleep] rejects a negative duration with [ValueError]. *)
Definition sleep_ok (secs : Z) : bool := 0 <=? secs.

(** One pass through the body of [for attempt in range(max_retries)]:
    either the loop goes on after sleeping, or the function is left. *)
Inductive step_result : Type :=
| Continue (slept : Z)
| Stop (o : outcome).

Definition sleep_then_continue (secs : Z) : step_result :=
  if sleep_ok secs then Continue secs
  else Stop (Raised "sleep length must be non-negative").

Definition attempt_step (max_retries retry_delay : Z) (attempt : nat)
  (g : get_result) : step_result :=
  match g with
  | Responded r =>
      if status_code r =? 200 then
        match body r with
        | Ok j => Stop (ReturnedBody j)
        | Raise e => Stop (ReturnedRequestFailed e)
        end
      else if status_code r =? 429 then
        match retry_wait retry_delay (retry_after_header r) with
        | Ok secs => sleep_then_continue secs
        | Raise e => Stop (Raised e)
        end
      else
        Stop (ReturnedStatusError (status_code r)
                (if String.eqb (text r) "" then "No details available"
                 else text r))
  | TimedOut =>
      if Z.of_nat attempt <? max_retries - 1
      then sleep_then_continue retry_delay
      else Stop ReturnedTimedOut
  | RequestFailed msg => Stop (ReturnedRequestFailed msg)
  end.

(** The [for] loop with [k] iterations left, the next one numbered
    [attempt]; falling out of it reaches the last [return]. *)
Fixpoint attempt_loop (net : network) (max_retries retry_delay : Z)
  (k : nat) (attempt : nat) : outcome * list effect :=
  match k with
  | O => (ReturnedMaxRetries, [])
  | S k' =>
      match attempt_step max_retries retry_delay attempt (net attempt) with
      | Stop o => (o, [EGet attempt])
      | Continue secs =>
          let '(o, tr) :=
            attempt_loop net max_retries retry_delay k' (S attempt) in
          (o, EGet attempt :: ESleep secs :: tr)
      end
  end.

Definition make_request_run (net : network) (max_retries retry_delay : Z)
  : outcome * list effect :=
  attempt_loop net max_retries retry_delay (Z.to_nat max_retries) 0.

Definition error_dict (msg : string) : json := JDict [("error", JStr msg)].

(** The Python value an exit hands to the caller. *)
Definition outcome_value (o : outcome) : res json :=
  match o with
  | ReturnedBody j => Ok j
  | ReturnedStatusError code details =>
      Ok (JDict [("error",
                  JStr ("Request failed with status code: " +:+ pretty code));
                 ("details", JStr details)])
  | ReturnedTimedOut => Ok (error_dict "Request timed out")
  | ReturnedRequestFailed msg => Ok (error_dict ("Request failed: " +:+ msg))
  | ReturnedMaxRetries => Ok (error_dict "Maximum retry attempts reached")
  | Raised e => Raise e
  end.

Definition make_request (net : network) (max_retries retry_delay : Z)
  : res json :=
  outcome_value (fst (make_request_run net max_retries retry_delay)).

(** [get_json_data] calls [make_request(url, params)] with the defaults
    [max_retries=3, retry_delay=1] and turns any exception into an error
    dict. *)
Definition get_json_data (net : network) : json :=
  match make_request net 3 1 with
  | Ok j => j
  | Raise e => error_dict ("Failed to fetch data: " +:+ e)
  end.



Definition rate_limited (h : retry_after) : get_result :=
  Responded (Response 429 h "" (Raise "no body")).

Definition ok_body (j : json) : get_result :=
  Responded (Response 200 RetryAfterAbsent "" (Ok j)).







Definition timeout_then_429 : network :=
  fun i => match i with
           | O => TimedOut
           | _ => rate_limited (RetryAfterInt 5)
           end.

(** ** Counting the effects of a run *)

(** The attempt numbers of the requests of a trace, in order. *)
Definition gets (tr : list effect) : list nat :=
  flat_map (fun e => match e with EGet i => [i] | ESleep _ => [] end) tr.

(** The sleeps of a trace, in order. *)
Definition sleeps (tr : list effect) : list Z :=
  flat_map (fun e => match e with EGet _ => [] | ESleep s => [s] end) tr.

End DataFetcher.

(** * services/location_service.py *)

Module LocationService.
Import DataFetcher.

(** [s.split(" ")[0]] *)
Fixpoint first_token (s : string) : string :=
  match s with
  | EmptyString => EmptyString
  | String c s' =>
      if Ascii.eqb c " "%char then EmptyString
      else String c (first_token s')
  end.

(** [net] answers the request for
    [https://api.postcodes.io/postcodes/{postcode_no_space}]. *)
Definition get_location_data (net : network) (postcode : string)
  : res json :=
  let response_data := get_json_data net in
  has_error <- py_in "error" response_data ;;;
  if has_error then Ok response_data else
  has_result <- py_in "result" response_data ;;;
  if negb has_result
  then Ok (error_dict "Unexpected API response format") else
  result <- py_getitem "result" response_data ;;;
  let outcode :=
    if is_substring " " postcode then first_token postcode else postcode in
  r_postcode <- py_get "postcode" (JStr postcode) result ;;;
  r_latitude <- py_get "latitude" JNull result ;;;
  r_longitude <- py_get "longitude" JNull result ;;;
  r_region <- py_get "region" JNull result ;;;
  r_country <- py_get "country" JNull result ;;;
  r_admin_district <- py_get "admin_district" JNull result ;;;
  r_admin_ward <- py_get "admin_ward" JNull result ;;;
  r_constituency <- py_get "parliamentary_constituency" JNull result ;;;
  r_electoral <- py_get "european_electoral_region" JNull result ;;;
  r_pct <- py_get "primary_care_trust" JNull result ;;;
  r_nuts <- py_get "nuts" JNull result ;;;
  r_codes <- py_get "codes" (JDict []) result ;;;
  Ok (JDict [("postcode", r_postcode);
             ("outcode", JStr outcode);
             ("latitude", r_latitude);
             ("longitude", r_longitude);
             ("region", r_region);
             ("country", r_country);
             ("admin_district", r_admin_district);
             ("admin_ward", r_admin_ward);
             ("parliamentary_constituency", r_constituency);
             ("european_electoral_region", r_electoral);
             ("primary_care_trust", r_pct);
             ("nuts", r_nuts);
             ("codes", r_codes)]).

(** A coordinate of a record is present when it is not [None]. *)
Definition present (k : string) (d : list (string * json)) : bool :=
  match dict_get k d with
  | Some JNull | None => false
  | Some _ => true
  end.

(** The reading of "an error value, or a record with both coordinates
    or neither". *)
Definition coordinates_paired (net : network) (postcode : string) : Prop :=
  exists v, get_location_data net postcode = Ok v /\
    (is_error_dict v = true \/
     exists d, v = JDict d /\ present "latitude" d = present "longitude" d).

(** A provider answer whose result carries a latitude only. *)
Definition latitude_only : network :=
  fun _ => ok_body
    (JDict [("status", JNum 200);
            ("result", JDict [("postcode", JStr "SW1A 1AA");
                              ("latitude", JNum (515 # 10))])]).

(** [get_nearby_postcodes]; [net] answers the request for
    [https://api.postcodes.io/postcodes] with the [lat], [lon], [radius]
    and [limit] parameters. *)
Definition get_nearby_postcodes (net : network) : res json :=
  let response_data := get_json_data net in
  has_error <- py_in "error" response_data ;;;
  if has_error then Ok response_data else
  has_result <- py_in "result" response_data ;;;
  if negb has_result
  then Ok (error_dict "Unexpected API response format") else
  py_getitem "result" response_data.

(** The keys of a location record, in the order they are written. *)
Definition location_keys : list string :=
  ["postcode"; "outcode"; "latitude"; "longitude"; "region"; "country";
   "admin_district"; "admin_ward"; "parliamentary_constituency";
   "european_electoral_region"; "primary_care_trust"; "nuts"; "codes"].

(** No attempt of a call is answered with status 200 and a body that
    decodes. *)
Definition never_answered (net : network) : Prop :=
  forall i r v, (i < 3)%nat -> net i = Responded r ->
                status_code r = 200 -> body r <> Ok v.

End LocationService.

(** * services/crime_service.py *)

Module CrimeService.
Import DataFetcher.

(** What the loops read of [datetime.datetime.now()]. *)
Record date_now : Type := DateNow {
  today_year : Z;
  today_month : Z
}.

(** The query of one [requests.get] to the street-crime endpoint. *)
Record crime_request : Type := CrimeRequest {
  req_lat : Q;
  req_lng : Q;
  req_date : string;
  req_radius : option Q
}.

(** The result of that [requests.get(..., timeout=15)]: a response, or any
    exception. *)
Inductive crime_get_result : Type :=
| CrimeResponded (status : Z) (text : string) (body : res json)
| CrimeGetFailed (e : string).

(** The provider: what the request numbered [i] (from 0) of a call gets. *)
Definition provider : Type := nat -> crime_request -> crime_get_result.

Inductive crime_effect : Type :=
| CGet (r : crime_request)
| CSleep (secs : Q).

(** The parameters [get_crime_data_for_date] sends. *)
Definition build_request (latitude longitude radius_km : Q)
  (date_str : string) : crime_request :=
  let radius_miles := py_min (radius_km * (621371 # 1000000)) 1 in
  CrimeRequest latitude longitude date_str
    (if Qle_bool radius_miles 1 then Some radius_miles else None).

(** [get_crime_data_for_date] after its single request was answered: the
    decoded body on status 200, an error dict otherwise. *)
Definition get_crime_data_for_date (answer : crime_get_result) : json :=
  match answer with
  | CrimeResponded status text body =>
      if status =? 200 then
        match body with
        | Ok j => j
        | Raise e => error_dict ("Failed to fetch crime data: " +:+ e)
        end
      else
        JDict [("error",
                JStr ("Request failed with status code: " +:+ pretty status));
               ("details",
                JStr (if String.eqb text "" then "No details available"
                      else text))]
  | CrimeGetFailed e => error_dict ("Failed to fetch crime data: " +:+ e)
  end.

(** [while current_month <= 0: current_month += 12; current_year -= 1] *)
Fixpoint wrap_month (fuel : nat) (current_month current_year : Z) : Z * Z :=
  match fuel with
  | O => (current_month, current_year)
  | S fuel' =>
      if current_month <=? 0
      then wrap_month fuel' (current_month + 12) (current_year - 1)
      else (current_month, current_year)
  end.

(** The month and year of iteration [i]; the loop above runs at most
    [1 - current_month] times. *)
Definition month_of (today : date_now) (i : nat) : Z * Z :=
  let current_month := today_month today - Z.of_nat i in
  wrap_month (Z.to_nat (1 - current_month)) current_month (today_year today).

(** The format [{n:02d}]: decimal digits, padded with a zero to width 2. *)
Definition fmt_02d (n : Z) : string :=
  let s := pretty n in
  if (String.length s <? 2)%nat then "0" +:+ s else s.

(** [f"{current_year}-{current_month:02d}"] *)
Definition date_str_of (today : date_now) (i : nat) : string :=
  let '(current_month, current_year) := month_of today i in
  pretty current_year +:+ "-" +:+ fmt_02d current_month.

(** [not isinstance(v, dict) or "error" not in v] *)
Definition valid_response (v : json) : bool := negb (is_error_dict v).

(** The loop of [get_crime_data] over the indices [idxs]. *)
Fixpoint crime_loop (prov : provider) (latitude longitude radius : Q)
  (today : date_now) (idxs : list nat) (all_crimes : list json)
  : res (list json) * list crime_effect :=
  match idxs with
  | [] => (Ok all_crimes, [])
  | i :: idxs' =>
      let req := build_request latitude longitude radius
                   (date_str_of today i) in
      let month_crimes := get_crime_data_for_date (prov i req) in
      if valid_response month_crimes then
        match iter_items month_crimes with
        | Ok items =>
            let '(r, tr) :=
              crime_loop prov latitude longitude radius today idxs'
                (all_crimes ++ items) in
            (r, CGet req :: CSleep (2 # 10) :: tr)
        | Raise e => (Raise e, [CGet req])
        end
      else
        let '(r, tr) :=
          crime_loop prov latitude longitude radius today idxs' all_crimes in
        (r, CGet req :: CSleep (2 # 10) :: tr)
  end.

(** [get_crime_data(latitude, longitude, radius, date)]; [date] is [None]
    or a string, and the empty string is as good as [None]. *)
Definition get_crime_data (prov : provider) (latitude longitude radius : Q)
  (date : option string) (today : date_now)
  : res json * list crime_effect :=
  let single d :=
    let req := build_request latitude longitude radius d in
    (Ok (get_crime_data_for_date (prov 0%nat req)), [CGet req]) in
  match date with
  | Some (String c d) => single (String c d)
  | _ =>
      let '(r, tr) :=
        crime_loop prov latitude longitude radius today (seq 0 12) [] in
      (all_crimes <- r ;;; Ok (JList all_crimes), tr)
  end.

(** The loop of [get_last_year_monthly_data] over the indices [idxs]. *)
Fixpoint monthly_loop (prov : provider) (latitude longitude radius : Q)
  (today : date_now) (idxs : list nat) (monthly_data : gmap string json)
  : gmap string json * list crime_effect :=
  match idxs with
  | [] => (monthly_data, [])
  | i :: idxs' =>
      let date_str := date_str_of today i in
      let req := build_request latitude longitude radius date_str in
      let crimes := get_crime_data_for_date (prov i req) in
      let monthly_data' :=
        if valid_response crimes then <[date_str := crimes]> monthly_data
        else monthly_data in
      let '(m, tr) :=
        monthly_loop prov latitude longitude radius today idxs'
          monthly_data' in
      (m, CGet req :: CSleep (2 # 10) :: tr)
  end.

Definition get_last_year_monthly_data (prov : provider)
  (latitude longitude radius : Q) (today : date_now)
  : gmap string json * list crime_effect :=
  monthly_loop prov latitude longitude radius today (seq 0 12) ∅.

(** The requests of a trace, in order. *)
Definition requests_of (tr : list crime_effect) : list crime_request :=
  flat_map (fun e => match e with CGet r => [r] | CSleep _ => [] end) tr.

(** The answer, as [get_crime_data_for_date] returns it, to the request of
    iteration [i]. *)
Definition month_response (prov : provider) (latitude longitude radius : Q)
  (today : date_now) (i : nat) : json :=
  get_crime_data_for_date
    (prov i (build_request latitude longitude radius (date_str_of today i))).

(** The month [i] months before the one numbered [month] of [year]. *)
Definition months_back (year month : Z) (i : nat) : Z * Z :=
  let n := 12 * year + (month - 1) - Z.of_nat i in
  (n mod 12 + 1, n / 12).

Definition digit_char (n : Z) : ascii := ascii_of_nat (48 + Z.to_nat n).

(** A month number written with two digits. *)
Definition two_digits (n : Z) : string :=
  String (digit_char (n / 10)) (String (digit_char (n mod 10)) EmptyString).

(** What a month contributes to the combined list. *)
Definition month_items (v : json) : list json :=
  if valid_response v then
    match iter_items v with Ok items => items | Raise _ => [] end
  else [].

(** A provider that is down for the second request and otherwise answers
    each request with a one-element list naming the month asked for. *)
Definition one_month_down : provider :=
  fun i r =>
    match i with
    | 1%nat => CrimeGetFailed "connection refused"
    | _ => CrimeResponded 200 "" (Ok (JList [JStr (req_date r)]))
    end.

(** The reading of "both functions issue exactly the twelve monthly
    requests, and the combined list holds what the months without an
    error contribute", whatever the provider answers. *)
Definition twelve_requests_always (prov : provider)
  (latitude longitude radius : Q) (today : date_now) : Prop :=
  let reqs :=
    map (fun i => build_request latitude longitude radius
                    (date_str_of today i)) (seq 0 12) in
  requests_of
    (snd (get_last_year_monthly_data prov latitude longitude radius today))
  = reqs /\
  requests_of (snd (get_crime_data prov latitude longitude radius None today))
  = reqs /\
  fst (get_crime_data prov latitude longitude radius None today)
  = Ok (JList (flat_map
                 (fun i => month_items
                             (month_response prov latitude longitude radius
                                today i))
                 (seq 0 12))).

(** The factor from kilometres to miles. *)
Definition miles_per_km : Q := 621371 # 1000000.

(** A value [for x in v] cannot iterate over. *)
Definition not_iterable (v : json) : bool :=
  match iter_items v with Ok _ => false | Raise _ => true end.

(** A provider that answers the third request with the JSON value
    [null] and every other request with an empty list. *)
Definition null_in_third_month : provider :=
  fun i _ =>
    match i with
    | 2%nat => CrimeResponded 200 "" (Ok JNull)
    | _ => CrimeResponded 200 "" (Ok (JList []))
    end.

End CrimeService.

(** * services/flood_service.py: point-in-polygon and risk tier *)

Module FloodRisk.

Definition point : Type := Q * Q.
Abbreviation ring := (list point).

(** Loop state of [point_in_polygon]: the flag, the previous vertex and
    the local [xinters], which is unbound until first assigned. *)
Record pip_state : Type := PipState {
  inside : bool;
  p1 : point;
  xinters : option Q
}.

(** One iteration of the [for i in range(n + 1)] body, given [p2]. *)
Definition pip_body (x y : Q) (st : pip_state) (p2 : point)
  : res pip_state :=
  let '(p1x, p1y) := p1 st in
  let '(p2x, p2y) := p2 in
  if Qlt_bool (py_min p1y p2y) y then
    if Qle_bool y (py_max p1y p2y) then
      if Qle_bool x (py_max p1x p2x) then
        let xi :=
          if negb (Qeq_bool p1y p2y)
          then Some ((y - p1y) * (p2x - p1x) / (p2y - p1y) + p1x)%Q
          else xinters st in
        if Qeq_bool p1x p2x then
          Ok (PipState (negb (inside st)) p2 xi)
        else
          match xi with
          | None => Raise "UnboundLocalError"
          | Some v =>
              if Qle_bool x v
              then Ok (PipState (negb (inside st)) p2 xi)
              else Ok (PipState (inside st) p2 xi)
          end
      else Ok (PipState (inside st) p2 (xinters st))
    else Ok (PipState (inside st) p2 (xinters st))
  else Ok (PipState (inside st) p2 (xinters st)).

(** The loop over the indices [idxs], reading [polygon[i % n]]. *)
Fixpoint pip_loop (x y : Q) (polygon : ring) (n : nat) (idxs : list nat)
  (st : pip_state) : res pip_state :=
  match idxs with
  | [] => Ok st
  | i :: idxs' =>
      match polygon !! (i mod n)%nat with
      | None => Raise "IndexError"
      | Some p2 =>
          st' <- pip_body x y st p2 ;;;
          pip_loop x y polygon n idxs' st'
      end
  end.

Definition point_in_polygon (pt : point) (polygon : ring) : res bool :=
  let '(x, y) := pt in
  let n := length polygon in
  match polygon !! 0%nat with
  | None => Raise "IndexError"
  | Some first =>
      st <- pip_loop x y polygon n (seq 0 (n + 1))
              (PipState false first None) ;;;
      Ok (inside st)
  end.

Definition square : ring := [(0, 0); (0, 10); (10, 10); (10, 0)]%Q.

(** The GeoJSON geometry of a feature as [check_point_in_flood_zones]
    reads it: ['type'] selects the shape of ['coordinates']; any other
    type tag (or a feature without geometry, read as [{}]) is skipped. *)
Inductive geometry : Type :=
| Polygon (coordinates : list ring)
| MultiPolygon (coordinates : list (list ring))
| OtherGeometry.

Record feature : Type := Feature { feature_geometry : geometry }.

(** The two keys of the bundle the check reads, [[]] when missing. *)
Record flood_data : Type := FloodData {
  flood_zone_2 : list feature;
  flood_zone_3 : list feature
}.

(** [for ring in coordinates: if point_in_polygon(...): flag = True; break] *)
Fixpoint scan_rings (pt : point) (rings : list ring) (flag : bool)
  : res bool :=
  match rings with
  | [] => Ok flag
  | r :: rings' =>
      hit <- point_in_polygon pt r ;;;
      if hit then Ok true else scan_rings pt rings' flag
  end.

(** [for polygon in coordinates: for ring in polygon: ...]; the [break]
    leaves the inner loop only. *)
Fixpoint scan_polygons (pt : point) (polys : list (list ring))
  (flag : bool) : res bool :=
  match polys with
  | [] => Ok flag
  | p :: polys' =>
      flag' <- scan_rings pt p flag ;;;
      scan_polygons pt polys' flag'
  end.

(** The loop over the features of one zone, left at the first feature
    after which the flag is set. *)
Fixpoint scan_features (pt : point) (fs : list feature) (flag : bool)
  : res bool :=
  match fs with
  | [] => Ok flag
  | f :: fs' =>
      flag' <- match feature_geometry f with
               | Polygon c => scan_rings pt c flag
               | MultiPolygon c => scan_polygons pt c flag
               | OtherGeometry => Ok flag
               end ;;;
      if flag' then Ok true else scan_features pt fs' flag'
  end.

(** Returns [(in_zone_2, in_zone_3)]. *)
Definition check_point_in_flood_zones (longitude latitude : Q)
  (fd : flood_data) : res (bool * bool) :=
  let pt := (longitude, latitude) in
  in_zone_3 <- scan_features pt (flood_zone_3 fd) false ;;;
  if negb in_zone_3 then
    in_zone_2 <- scan_features pt (flood_zone_2 fd) false ;;;
    Ok (in_zone_2, in_zone_3)
  else Ok (false, in_zone_3).

Record risk_description : Type := RiskDescription {
  title : string;
  text : string;
  risk_level : string
}.

Definition get_flood_risk_description (fd : flood_data)
  (longitude latitude : Q) : res risk_description :=
  zs <- check_point_in_flood_zones longitude latitude fd ;;;
  let '(in_zone_2, in_zone_3) := zs in
  if in_zone_3 then
    Ok (RiskDescription
          "High Flood Risk (Flood Zone 3)"
          ("This location is within a high flood risk area (1% or greater annual probability of river flooding, "
           +:+ "or 0.5% or greater annual probability of sea flooding). "
           +:+ "Properties at this location have a high probability of flooding.")
          "high")
  else if in_zone_2 then
    Ok (RiskDescription
          "Medium Flood Risk (Flood Zone 2)"
          ("This area has a medium probability of flooding (between 0.1% and 1% annual probability of river flooding, "
           +:+ "or between 0.1% and 0.5% annual probability of sea flooding). "
           +:+ "Properties in this zone have a medium probability of flooding.")
          "medium")
  else
    Ok (RiskDescription
          "Low Flood Risk (Flood Zone 1)"
          ("This area has a low probability of flooding (less than 0.1% annual probability). "
           +:+ "Properties in this zone have a low probability of flooding.")
          "low").

(** Every ring a feature offers to the test. *)
Definition rings_of (f : feature) : list ring :=
  match feature_geometry f with
  | Polygon c => c
  | MultiPolygon c => concat c
  | OtherGeometry => []
  end.

(** The point lies inside at least one ring of some feature of [fs]. *)
Definition inside_some_ring (pt : point) (fs : list feature) : Prop :=
  exists f r, In f fs /\ In r (rings_of f) /\ point_in_polygon pt r = Ok true.

(** Rings as GeoJSON has them: at least one position each. *)
Definition rings_nonempty (fs : list feature) : Prop :=
  forall f r, In f fs -> In r (rings_of f) -> r <> [].

(** The bundle of the precedence example: one square in each zone. *)
Definition overlapping_zones : flood_data :=
  FloodData [Feature (Polygon [square])]
            [Feature (MultiPolygon [[square]])].

(** The loop of [point_in_polygon] seen as a walk along the vertices it
    reads, one after the other. *)
Fixpoint pip_walk (x y : Q) (st : pip_state) (vertices : list point)
  : res pip_state :=
  match vertices with
  | [] => Ok st
  | p2 :: vertices' =>
      st' <- pip_body x y st p2 ;;;
      pip_walk x y st' vertices'
  end.

(** The point is to the right of every vertex, above every vertex, or
    not above any vertex. *)
Definition outside_box (pt : point) (polygon : ring) : Prop :=
  (forall p, In p polygon -> (fst p < fst pt)%Q) \/
  (forall p, In p polygon -> (snd p < snd pt)%Q) \/
  (forall p, In p polygon -> (snd pt <= snd p)%Q).

(** A ring with an empty ring before it, as a Zone 2 feature. *)
Definition malformed_zone_2 : list feature :=
  [Feature (Polygon [[]; square])].

End FloodRisk.

(** * services/flood_service.py: the flood-data bundle *)

Module FloodService.
Import DataFetcher.

(** The three endpoints as [make_request] reaches them: the zone-geometry
    pages (one network per [offset] asked for), the flood warnings and the
    monitoring stations. [get_bounding_box] is float arithmetic that only
    fills the [bbox] parameter of the page request. *)
Record flood_network : Type := FloodNetwork {
  zone_net : Z -> network;
  warnings_net : network;
  stations_net : network
}.

(** [params["limit"]] *)
Definition limit : Z := 10000.

(** [make_request(url, params)] with the default retry arguments. *)
Definition fetch (net : network) : res json := make_request net 3 1.

(** One pass through the [while True] body: leave the loop with the
    features gathered, or go on at the next offset. *)
Inductive page_step : Type :=
| PagesDone (all_features : list json)
| NextPage (all_features : list json) (offset : Z).

Definition page_body (fn : flood_network) (offset : Z)
  (all_features : list json) : res page_step :=
  response <- fetch (zone_net fn offset) ;;;
  has_features <- py_in "features" response ;;;
  if negb has_features then Ok (PagesDone all_features) else
  features <- py_getitem "features" response ;;;
  if negb (truthy features) then Ok (PagesDone all_features) else
  items <- iter_items features ;;;
  n <- py_len features ;;;
  if n <? limit then Ok (PagesDone (all_features ++ items))
  else Ok (NextPage (all_features ++ items) (offset + n)).

(** The paging loop; [None] when [fuel] passes were not enough to leave
    it. *)
Fixpoint fetch_pages (fuel : nat) (fn : flood_network) (offset : Z)
  (all_features : list json) : option (res (list json)) :=
  match fuel with
  | O => None
  | S fuel' =>
      match page_body fn offset all_features with
      | Raise e => Some (Raise e)
      | Ok (PagesDone all') => Some (Ok all')
      | Ok (NextPage all' offset') => fetch_pages fuel' fn offset' all'
      end
  end.

(** [flood_zone in [a, b]] *)
Definition zone_code_in (flood_zone : json) (a b : string) : bool :=
  match flood_zone with
  | JStr s => String.eqb s a || String.eqb s b
  | _ => false
  end.

(** The split of the features into the FZ2 and FZ3 buckets. *)
Fixpoint split_zones (features : list json) (fz2 fz3 : list json)
  : res (list json * list json) :=
  match features with
  | [] => Ok (fz2, fz3)
  | feature :: features' =>
      properties <- py_get "properties" (JDict []) feature ;;;
      flood_zone <- py_get "flood_zone" (JStr "") properties ;;;
      if zone_code_in flood_zone "FZ2" "2"
      then split_zones features' (fz2 ++ [feature]) fz3
      else if zone_code_in flood_zone "FZ3" "3"
      then split_zones features' fz2 (fz3 ++ [feature])
      else split_zones features' fz2 fz3
  end.

(** [isinstance(feature, dict) and feature.get('geometry')] *)
Definition has_geometry (feature : json) : bool :=
  match feature with
  | JDict d => truthy (dict_get_none "geometry" d)
  | _ => false
  end.

(** [d.get(k, default)] on a value known to be a dict. *)
Definition get_or (k : string) (default : json) (d : list (string * json))
  : json :=
  match dict_get k d with Some v => v | None => default end.

(** The loop over [response["items"]] of [get_flood_warnings]. *)
Fixpoint collect_warnings (items : list json) (warnings : list json)
  : list json :=
  match items with
  | [] => warnings
  | JDict warning :: items' =>
      match get_or "floodArea" (JDict []) warning with
      | JDict flood_area =>
          let county := get_or "county" (JStr "") flood_area in
          collect_warnings items'
            (warnings ++
             [JDict
                [("severity", get_or "severity" (JStr "Unknown") warning);
                 ("severity_level", get_or "severityLevel" (JNum 0) warning);
                 ("description",
                  get_or "description" (JStr "No description available")
                    warning);
                 ("area", get_or "eaAreaName" (JStr "Unknown area") warning);
                 ("county", county);
                 ("message", get_or "message" (JStr "") warning);
                 ("time_raised", get_or "timeRaised" (JStr "") warning);
                 ("time_updated",
                  get_or "timeMessageChanged" (JStr "") warning)]])
      | _ => collect_warnings items' warnings
      end
  | _ :: items' => collect_warnings items' warnings
  end.

Definition count_of (l : list json) : json :=
  JNum (inject_Z (Z.of_nat (length l))).

(** The body of the [try] of [get_flood_warnings]. *)
Definition flood_warnings_body (net : network) : res json :=
  response <- fetch net ;;;
  has_error <- py_in "error" response ;;;
  if has_error then
    e <- py_getitem "error" response ;;;
    Ok (JDict [("error", e)])
  else
  has_items <- py_in "items" response ;;;
  warnings <-
    (if has_items then
       items <- py_getitem "items" response ;;;
       elements <- iter_items items ;;;
       Ok (collect_warnings elements [])
     else Ok []) ;;;
  Ok (JDict [("count", count_of warnings); ("warnings", JList warnings)]).

Definition get_flood_warnings (net : network) : json :=
  match flood_warnings_body net with
  | Ok v => v
  | Raise e =>
      JDict [("count", JNum 0); ("warnings", JList []);
             ("error", JStr ("Failed to retrieve flood warnings: " +:+ e))]
  end.

(** The loop over a station's measures: the reading of the first measure
    that has one. *)
Fixpoint first_reading (measures : list json) : res json :=
  match measures with
  | [] => Ok JNull
  | JDict measure :: measures' =>
      if dict_has "latestReading" measure then
        let reading := get_or "latestReading" (JDict []) measure in
        value <- py_get "value" (JStr "N/A") reading ;;;
        date <- py_get "dateTime" (JStr "N/A") reading ;;;
        Ok (JDict [("value", value); ("date", date);
                   ("parameter",
                    get_or "parameterName" (JStr "Unknown parameter")
                      measure)])
      else first_reading measures'
  | _ :: measures' => first_reading measures'
  end.

(** The loop over [response["items"]] of
    [get_nearby_flood_monitoring_stations]. *)
Fixpoint collect_stations (items : list json) (stations : list json)
  : res (list json) :=
  match items with
  | [] => Ok stations
  | JDict station :: items' =>
      latest_reading <-
        match get_or "measures" (JList []) station with
        | JList measures => first_reading measures
        | _ => Ok JNull
        end ;;;
      collect_stations items'
        (stations ++
         [JDict
            [("name", get_or "label" (JStr "Unknown station") station);
             ("river", get_or "riverName" (JStr "Unknown river") station);
             ("type", get_or "stationType" (JStr "Unknown type") station);
             ("status", get_or "status" (JStr "Unknown status") station);
             ("distance_km",
              get_or "distance" (JStr "Unknown distance") station);
             ("latest_reading", latest_reading)]])
  | _ :: items' => collect_stations items' stations
  end.

Definition flood_stations_body (net : network) : res json :=
  response <- fetch net ;;;
  has_error <- py_in "error" response ;;;
  if has_error then
    e <- py_getitem "error" response ;;;
    Ok (JDict [("error", e)])
  else
  has_items <- py_in "items" response ;;;
  stations <-
    (if has_items then
       items <- py_getitem "items" response ;;;
       elements <- iter_items items ;;;
       collect_stations elements []
     else Ok []) ;;;
  Ok (JDict [("count", count_of stations); ("stations", JList stations)]).

Definition get_nearby_flood_monitoring_stations (net : network) : json :=
  match flood_stations_body net with
  | Ok v => v
  | Raise e =>
      JDict [("count", JNum 0); ("stations", JList []);
             ("error",
              JStr ("Failed to retrieve flood monitoring stations: " +:+ e))]
  end.

(** The part of [get_flood_data] before the two other fetches: paging,
    splitting and filtering. *)
Definition flood_zones (fuel : nat) (fn : flood_network)
  : option (res (list json * list json)) :=
  match fetch_pages fuel fn 0 [] with
  | None => None
  | Some r =>
      Some (all_features <- r ;;;
            zones <- split_zones all_features [] [] ;;;
            Ok (filter (fun f => has_geometry f = true) (fst zones),
                filter (fun f => has_geometry f = true) (snd zones)))
  end.

(** [get_flood_data]; [None] when the paging loop is still running after
    [fuel] pages. *)
Definition get_flood_data (fuel : nat) (fn : flood_network)
  (latitude longitude radius_km : Q) : option json :=
  match flood_zones fuel fn with
  | None => None
  | Some (Raise e) =>
      Some (error_dict ("Failed to retrieve flood data: " +:+ e))
  | Some (Ok (flood_zone_2, flood_zone_3)) =>
      let flood_warnings := get_flood_warnings (warnings_net fn) in
      let flood_risk_metrics :=
        get_nearby_flood_monitoring_stations (stations_net fn) in
      Some (JDict [("flood_zone_2", JList flood_zone_2);
                   ("flood_zone_3", JList flood_zone_3);
                   ("flood_warnings", flood_warnings);
                   ("flood_metrics", flood_risk_metrics);
                   ("center", JDict [("latitude", JNum latitude);
                                     ("longitude", JNum longitude)]);
                   ("radius_km", JNum radius_km)])
  end.

(** The fetch came back from [make_request] as the error value
    [{"error": msg, ...}]. *)
Definition failed_with (net : network) (msg : string) : Prop :=
  exists rest, fetch net = Ok (JDict (("error", JStr msg) :: rest)).

(** The reading of "a transport failure of any step makes the whole call
    return a top-level error, never a bundle". *)
Definition failure_is_top_level (fn : flood_network)
  (latitude longitude radius_km : Q) : Prop :=
  (exists msg, failed_with (zone_net fn 0) msg \/
               failed_with (warnings_net fn) msg \/
               failed_with (stations_net fn) msg) ->
  forall fuel v,
    get_flood_data fuel fn latitude longitude radius_km = Some v ->
    is_error_dict v = true.

(** No zone features, no stations, and a warnings endpoint that times
    out on every attempt. *)
Definition warnings_down : flood_network :=
  FloodNetwork
    (fun _ _ => ok_body (JDict [("features", JList [])]))
    (fun _ => TimedOut)
    (fun _ => ok_body (JDict [("items", JList [])])).

(** [feature.get("properties", {}).get("flood_zone", "")] *)
Definition flood_zone_of (feature : json) : res json :=
  properties <- py_get "properties" (JDict []) feature ;;;
  py_get "flood_zone" (JStr "") properties.

(** The feature's zone code is one of the two spellings [a], [b]. *)
Definition in_zone (a b : string) (feature : json) : bool :=
  match flood_zone_of feature with
  | Ok flood_zone => zone_code_in flood_zone a b
  | Raise _ => false
  end.

(** [make_request] came back with one of its error values: a non-200
    status, a timeout, a failed request or the retries used up. *)
Definition transport_failure (net : network) : Prop :=
  match fst (make_request_run net 3 1) with
  | ReturnedBody _ | Raised _ => False
  | _ => True
  end.

(** The zone endpoint answers the request at [offset] with a body whose
    ["features"] are [items]. *)
Definition serves (fn : flood_network) (offset : Z) (items : list json)
  : Prop :=
  exists d, fetch (zone_net fn offset) = Ok (JDict d) /\
            dict_get "features" d = Some (JList items).


(** A station one of whose measures carries a ["latestReading"] that is
    not a dict (a link to the reading, say), no earlier measure of the
    station having a reading. *)
Definition reading_not_expanded (station : list (string * json)) : Prop :=
  exists pre measure post reading,
    dict_get "measures" station = Some (JList (pre ++ JDict measure :: post))
    /\ Forall (fun m => match m with
                        | JDict d => dict_has "latestReading" d = false
                        | _ => True
                        end) pre
    /\ dict_get "latestReading" measure = Some reading
    /\ (forall d, reading <> JDict d).

(** The zone endpoint times out on every attempt; no warnings, no
    stations. *)
Definition zones_down : flood_network :=
  FloodNetwork
    (fun _ _ => TimedOut)
    (fun _ => ok_body (JDict [("items", JList [])]))
    (fun _ => ok_body (JDict [("items", JList [])])).

Definition zone_feature (code : string) (geometry : json) : json :=
  JDict [("properties", JDict [("flood_zone", JStr code)]);
         ("geometry", geometry)].

(** One short page: a Zone 2 feature, a Zone 3 feature, a Zone 2 feature
    without geometry and a feature of another zone. *)
Definition one_page : flood_network :=
  FloodNetwork
    (fun _ _ =>
       ok_body (JDict [("features",
                        JList [zone_feature "FZ2" (JStr "g1");
                               zone_feature "3" (JStr "g2");
                               zone_feature "2" JNull;
                               zone_feature "FZ1" (JStr "g3")])]))
    (fun _ => ok_body (JDict [("items", JList [])]))
    (fun _ => ok_body (JDict [("items", JList [])])).


(** A full page whatever the offset. *)
Definition always_full : flood_network :=
  FloodNetwork
    (fun _ _ => ok_body (JDict [("features", JList (repeat JNull (Z.to_nat limit)))]))
    (fun _ => ok_body (JDict [("items", JList [])]))
    (fun _ => ok_body (JDict [("items", JList [])])).

(** One station whose only measure has a link for a reading, after a
    well-formed one. *)
Definition linked_reading : network :=
  fun _ =>
    ok_body
      (JDict [("items",
               JList [JDict [("label", JStr "Upstream")];
                      JDict [("label", JStr "Weir");
                             ("measures",
                              JList [JDict [("latestReading",
                                             JStr "http://reading/1")]])]])]).

End FloodService.

(** * services/property_service.py *)

Module PropertyService.

(** The [refMonth] of a result row as [datetime.strptime(date_str, '%Y-%m')]
    reads it: a year and a month, or text the format rejects. *)
Inductive ref_month : Type :=
| MonthParsed (year month : Z)
| MonthUnparsed (date_str : string).

(** The ['date'] of a price entry. [DateYMD y m d] stands for the text
    [strftime('%Y-%m-%d')] writes, which is what [strptime(..., '%Y-%m-%d')]
    reads back; [DateRaw] is the fallback text of a row whose month did not
    parse, which that format rejects. Two dates are the same text exactly
    if they are equal here. *)
Inductive date_field : Type :=
| DateYMD (year month day : Z)
| DateRaw (s : string).

Definition date_eqb (a b : date_field) : bool :=
  match a, b with
  | DateYMD y m d, DateYMD y' m' d' => (y =? y') && (m =? m') && (d =? d')
  | DateRaw s, DateRaw s' => String.eqb s s'
  | _, _ => false
  end.

(** One binding of the SPARQL result: the month and, for each channel that
    is present, the float read from its ['value']. *)
Record hpi_row : Type := HpiRow {
  refMonth : ref_month;
  averagePrice : option Q;
  averagePriceDetached : option Q;
  averagePriceSemiDetached : option Q;
  averagePriceTerraced : option Q;
  averagePriceFlatMaisonette : option Q;
  percentageAnnualChange : option Q;
  percentageAnnualChangeDetached : option Q;
  percentageAnnualChangeSemiDetached : option Q;
  percentageAnnualChangeTerraced : option Q;
  percentageAnnualChangeFlatMaisonette : option Q
}.

Record price_entry : Type := PriceEntry {
  date : date_field;
  average_price : Z;
  property_type : string;
  percentage_annual_change : option Q
}.

(** [round(x)]: the nearest integer, a tie going to the even one. *)
Definition py_round (x : Q) : Z :=
  let f := Qfloor x in
  let r := (x - inject_Z f)%Q in
  if Qlt_bool r (1 # 2) then f
  else if Qlt_bool (1 # 2) r then f + 1
  else if Z.even f then f else f + 1.

(** [round(x, 2)], as the decimal it denotes. *)
Definition py_round2 (x : Q) : Q :=
  (inject_Z (py_round (x * 100)) / 100)%Q.

Definition formatted_date_of (r : ref_month) : date_field :=
  match r with
  | MonthParsed y m => DateYMD y m 1
  | MonthUnparsed date_str =>
      DateRaw (if is_substring "-" date_str then date_str +:+ "-01"
               else date_str)
  end.

(** The entry the generator of one channel looks for: same date, same
    type, another rounded price. *)
Definition conflicts (formatted_date : date_field) (type : string)
  (price : Q) (item : price_entry) : bool :=
  date_eqb (date item) formatted_date
  && String.eqb (property_type item) type
  && negb (average_price item =? py_round price).

(** One of the five [if ..._price > 0:] blocks. *)
Definition add_channel (price_data : list price_entry)
  (formatted_date : date_field) (type : string) (price : Q)
  (pct_change : option Q) : list price_entry :=
  if Qlt_bool 0 price then
    match List.find (conflicts formatted_date type price) price_data with
    | None =>
        price_data ++
        [PriceEntry formatted_date (py_round price) type
           (option_map py_round2 pct_change)]
    | Some existing_entry => price_data
    end
  else price_data.

(** The price of a channel: the float of its value, [0] when absent. *)
Definition price_or_zero (v : option Q) : Q :=
  match v with Some x => x | None => 0%Q end.

(** The body of [for entry in hpi_data]. *)
Definition add_row (price_data : list price_entry) (entry : hpi_row)
  : list price_entry :=
  let formatted_date := formatted_date_of (refMonth entry) in
  let pd1 := add_channel price_data formatted_date "Average"
               (price_or_zero (averagePrice entry))
               (percentageAnnualChange entry) in
  let pd2 := add_channel pd1 formatted_date "Detached"
               (price_or_zero (averagePriceDetached entry))
               (percentageAnnualChangeDetached entry) in
  let pd3 := add_channel pd2 formatted_date "Semi-detached"
               (price_or_zero (averagePriceSemiDetached entry))
               (percentageAnnualChangeSemiDetached entry) in
  let pd4 := add_channel pd3 formatted_date "Terraced"
               (price_or_zero (averagePriceTerraced entry))
               (percentageAnnualChangeTerraced entry) in
  add_channel pd4 formatted_date "Flat/Maisonette"
    (price_or_zero (averagePriceFlatMaisonette entry))
    (percentageAnnualChangeFlatMaisonette entry).

Definition build_price_data (hpi_data : list hpi_row) : list price_entry :=
  fold_left add_row hpi_data [].

(** ** Dates as [datetime] orders and subtracts them *)

Definition is_leap (y : Z) : bool :=
  (y mod 4 =? 0) && (negb (y mod 100 =? 0) || (y mod 400 =? 0)).

Definition days_before_year (y : Z) : Z :=
  let y1 := y - 1 in
  y1 * 365 + y1 / 4 - y1 / 100 + y1 / 400.

Definition days_before_month (y m : Z) : Z :=
  nth (Z.to_nat (m - 1)) [0; 31; 59; 90; 120; 151; 181; 212; 243; 273; 304; 334] 0
  + (if (2 <? m) && is_leap y then 1 else 0).

(** [date.toordinal()] *)
Definition toordinal (y m d : Z) : Z :=
  days_before_year y + days_before_month y m + d.

(** [datetime.strptime(item['date'], '%Y-%m-%d')]: the date, kept with its
    day number. *)
Definition strptime_ymd (d : date_field) : res (date_field * Z) :=
  match d with
  | DateYMD y m dd => Ok (d, toordinal y m dd)
  | DateRaw s => Raise "ValueError: time data does not match format"
  end.

Fixpoint parse_all (ds : list date_field) : res (list (date_field * Z)) :=
  match ds with
  | [] => Ok []
  | d :: ds' =>
      p <- strptime_ymd d ;;;
      ps <- parse_all ds' ;;;
      Ok (p :: ps)
  end.

Definition is_average (item : price_entry) : bool :=
  String.eqb (property_type item) "Average".

(** [max(l)] on dates: the first of the latest. *)
Fixpoint latest_from (best : date_field * Z) (l : list (date_field * Z))
  : date_field * Z :=
  match l with
  | [] => best
  | x :: l' => latest_from (if snd best <? snd x then x else best) l'
  end.

(** [min(l, key=lambda d: abs(d - target))]: the first of the nearest. *)
Fixpoint nearest_from (target : Z) (best : date_field * Z)
  (l : list (date_field * Z)) : date_field * Z :=
  match l with
  | [] => best
  | x :: l' =>
      nearest_from target
        (if Z.abs (snd x - target) <? Z.abs (snd best - target)
         then x else best) l'
  end.

(** [next((item['average_price'] for item in price_data
          if item['date'] == d and item['property_type'] == 'Average'), 0)] *)
Definition average_on (price_data : list price_entry) (d : date_field) : Z :=
  match List.find (fun item => date_eqb (date item) d && is_average item)
          price_data with
  | Some item => average_price item
  | None => 0
  end.

(** The [if price_data:] block up to [yearly_change_percentage], with
    [average_recent]. *)
Definition yearly_change (price_data : list price_entry)
  : res (Z * option Q) :=
  let average_entries := List.filter is_average price_data in
  dates <- parse_all (map date average_entries) ;;;
  match dates with
  | [] => Raise "ValueError: max() arg is an empty sequence"
  | first :: others =>
      let recent_date := latest_from first others in
      if snd recent_date - 365 <? 1
      then Raise "OverflowError: date value out of range" else
      let year_ago_date := snd recent_date - 365 in
      let average_recent := average_on price_data (fst recent_date) in
      let closest_year_ago := nearest_from year_ago_date first others in
      let average_year_ago :=
        average_on price_data (fst closest_year_ago) in
      if 0 <? average_year_ago then
        Ok (average_recent,
            Some ((inject_Z (average_recent - average_year_ago)
                   / inject_Z average_year_ago) * 100)%Q)
      else Ok (average_recent, None)
  end.

(** What [get_uk_house_price_index] returns once the query was answered
    with status 200 and the bindings [hpi_data] (the region name, derived
    from the first binding alone, is left out): the summary or an error
    value; an exception raised on the way is caught and reported. *)
Record price_summary : Type := PriceSummary {
  current_average_price : option Z;
  yearly_change_percentage : option Q;
  summary_price_data : list price_entry
}.

Inductive hpi_result : Type :=
| Summary (s : price_summary)
| ErrorResult (msg : string).

Definition get_uk_house_price_index (hpi_data : list hpi_row) : hpi_result :=
  match hpi_data with
  | [] => ErrorResult "No house price index data found"
  | _ =>
      let price_data := build_price_data hpi_data in
      match price_data with
      | [] => ErrorResult "No valid house price data found"
      | _ =>
          match yearly_change price_data with
          | Ok (average_recent, yearly_change_percentage) =>
              Summary (PriceSummary
                         (if 0 <? average_recent then Some average_recent
                          else None)
                         yearly_change_percentage price_data)
          | Raise e =>
              ErrorResult ("Failed to get UK House Price Index data: " +:+ e)
          end
      end
  end.

(** The day number of an entry's date (0 for text that is no date). *)
Definition ordinal_of (item : price_entry) : Z :=
  match date item with
  | DateYMD y m d => toordinal y m d
  | DateRaw _ => 0
  end.

(** An entry's date as [strptime] returns it. *)
Definition dated (item : price_entry) : date_field * Z :=
  (date item, ordinal_of item).

Definition is_ymd (d : date_field) : bool :=
  match d with DateYMD _ _ _ => true | DateRaw _ => false end.

(** A row with one channel. *)
Definition detached_row (y m : Z) (price : Q) : hpi_row :=
  HpiRow (MonthParsed y m) None (Some price) None None None
    None None None None None.

Definition average_row (y m : Z) (price : Q) : hpi_row :=
  HpiRow (MonthParsed y m) (Some price) None None None None
    None None None None None.

(** [property_types + ["Average"]], in the order the channels are
    read. *)
Definition channel_types : list string :=
  ["Average"; "Detached"; "Semi-detached"; "Terraced"; "Flat/Maisonette"].

(** No two entries give one date and one property type two prices. *)
Definition one_price_per_date_and_type (price_data : list price_entry)
  : Prop :=
  forall a b,
    In a price_data -> In b price_data ->
    date a = date b -> property_type a = property_type b ->
    average_price a = average_price b.

(** A row with an average price whose month is text [strptime] rejects. *)
Definition unparsed_row (date_str : string) (price : Q) : hpi_row :=
  HpiRow (MonthUnparsed date_str) (Some price) None None None None
    None None None None None.

End PropertyService.

(** * utils/postcode_validator.py *)

Module PostcodeValidator.
Import DataFetcher.

(** Text is modelled on ASCII: [str.upper] maps the letters a-z and
    leaves every other ASCII character. *)
Definition ascii_only (s : string) : Prop :=
  Forall (fun c => (nat_of_ascii c < 128)%nat) (list_ascii_of_string s).

Definition in_range (lo hi : nat) (c : ascii) : bool :=
  (lo <=? nat_of_ascii c)%nat && (nat_of_ascii c <=? hi)%nat.

(** The character classes [[A-Z]], [[0-9]] and [[A-Z0-9]]. *)
Definition is_upper (c : ascii) : bool := in_range 65 90 c.
Definition is_digit (c : ascii) : bool := in_range 48 57 c.
Definition is_upper_or_digit (c : ascii) : bool := is_upper c || is_digit c.

Definition upper_char (c : ascii) : ascii :=
  if in_range 97 122 c then ascii_of_nat (nat_of_ascii c - 32) else c.

(** [s.replace(" ", "")] *)
Fixpoint remove_spaces (s : string) : string :=
  match s with
  | EmptyString => EmptyString
  | String c s' =>
      if Ascii.eqb c " "%char then remove_spaces s'
      else String c (remove_spaces s')
  end.

(** [s.upper()] *)
Fixpoint upper (s : string) : string :=
  match s with
  | EmptyString => EmptyString
  | String c s' => String (upper_char c) (upper s')
  end.

(** [$]: the end of the text, or just before a final newline. *)
Definition at_end (s : string) : bool :=
  match s with
  | EmptyString => true
  | String c EmptyString => Ascii.eqb c "010"%char
  | _ => false
  end.

(** [[0-9][A-Z]{2}$] *)
Definition match_inward (s : string) : bool :=
  match s with
  | String d (String a (String b rest)) =>
      is_digit d && is_upper a && is_upper b && at_end rest
  | _ => false
  end.

(** [[0-9][A-Z0-9]?[0-9][A-Z]{2}$] *)
Definition match_district (s : string) : bool :=
  match s with
  | String d rest =>
      is_digit d &&
      ((match rest with
        | String c rest' => is_upper_or_digit c && match_inward rest'
        | EmptyString => false
        end) || match_inward rest)
  | EmptyString => false
  end.

(** [re.match(r'^[A-Z]{1,2}[0-9][A-Z0-9]?[0-9][A-Z]{2}$', s)] finds a
    match. *)
Definition matches_pattern (s : string) : bool :=
  match s with
  | String a rest =>
      is_upper a &&
      ((match rest with
        | String b rest' => is_upper b && match_district rest'
        | EmptyString => false
        end) || match_district rest)
  | EmptyString => false
  end.

(** [s[:-3]] and [s[-3:]] *)
Definition but_last3 (s : string) : string :=
  String.substring 0 (String.length s - 3) s.
Definition last3 (s : string) : string :=
  String.substring (String.length s - 3) 3 s.

(** [v == n] for an int [n] other than 0 and 1. *)
Definition py_eq_int (v : json) (n : Z) : bool :=
  match v with
  | JNum q => Qeq_bool q (inject_Z n)
  | _ => false
  end.

(** The part of the [try] that can answer "not found": [false] exactly
    when the service answered 200 with a body whose ["status"] is 200 and
    whose ["result"] is falsy; every other answer, and every exception,
    falls back to the regex verdict. *)
Definition service_confirms (api : get_result) : bool :=
  match api with
  | Responded r =>
      if status_code r =? 200 then
        match body r with
        | Ok data =>
            match py_getitem "status" data with
            | Ok st =>
                if py_eq_int st 200 then
                  match py_getitem "result" data with
                  | Ok result => truthy result
                  | Raise _ => true
                  end
                else true
            | Raise _ => true
            end
        | Raise _ => true
        end
      else true
  | _ => true
  end.

(** [validate_postcode(postcode)], the answer of the validation service
    being [api]; returns [(is_valid, formatted_postcode, error_message)]. *)
Definition validate_postcode (postcode : string) (api : get_result)
  : bool * string * string :=
  match postcode with
  | EmptyString => (false, "", "Postcode cannot be empty")
  | _ =>
      let postcode := upper (remove_spaces postcode) in
      if negb (matches_pattern postcode)
      then (false, postcode, "Invalid postcode format")
      else
        let formatted_postcode :=
          but_last3 postcode +:+ " " +:+ last3 postcode in
        if service_confirms api then (true, formatted_postcode, "")
        else (false, formatted_postcode, "Postcode not found in database")
  end.

Definition newline : ascii := "010"%char.

(** The outward part of a normalised postcode: a letter first, letters
    and digits after it, two to four characters. *)
Definition outward_ok (s : string) : bool :=
  match s with
  | String a rest =>
      is_upper a
      && forallb is_upper_or_digit (list_ascii_of_string rest)
      && (1 <=? String.length rest)%nat && (String.length rest <=? 3)%nat
  | EmptyString => false
  end.

(** The inward part: a digit and two letters. *)
Definition inward_ok (s : string) : bool :=
  match s with
  | String d (String a (String b EmptyString)) =>
      is_digit d && is_upper a && is_upper b
  | _ => false
  end.

(** No character of [s] is a space. *)
Definition no_space (s : string) : Prop :=
  forall c, In c (list_ascii_of_string s) -> Ascii.eqb c " " = false.

End PostcodeValidator.

(** * Theorems *)

(** ** Shared lemmas *)

Lemma Qle_bool_false (a b : Q) : Qle_bool a b = false -> (b < a)%Q.
Proof.
  intros H. apply Qnot_le_lt. intros Hle.
  apply Qle_bool_iff in Hle. congruence.
Qed.

Lemma Qeq_bool_false (a b : Q) : Qeq_bool a b = false -> ~ (a == b)%Q.
Proof. intros H Heq. apply Qeq_bool_iff in Heq. congruence. Qed.

Lemma Qlt_bool_true (a b : Q) : Qlt_bool a b = true -> (a < b)%Q.
Proof.
  unfold Qlt_bool. intros H. apply negb_true_iff in H.
  now apply Qle_bool_false.
Qed.

Lemma Qlt_bool_false (a b : Q) : Qlt_bool a b = false -> (b <= a)%Q.
Proof.
  unfold Qlt_bool. intros H. apply negb_false_iff in H.
  now apply Qle_bool_iff.
Qed.

(** Turns boolean comparisons among the hypotheses into propositions. *)
Ltac qprop :=
  repeat match goal with
  | H : Qle_bool _ _ = true |- _ => apply Qle_bool_iff in H
  | H : Qle_bool _ _ = false |- _ => apply Qle_bool_false in H
  | H : Qlt_bool _ _ = true |- _ => apply Qlt_bool_true in H
  | H : Qlt_bool _ _ = false |- _ => apply Qlt_bool_false in H
  | H : Qeq_bool _ _ = true |- _ => apply Qeq_bool_iff in H
  | H : Qeq_bool _ _ = false |- _ => apply Qeq_bool_false in H
  end.

Lemma res_bind_Ok {A B} (m : res A) (k : A -> res B) (b : B) :
  res_bind m k = Ok b -> exists a, m = Ok a /\ k a = Ok b.
Proof. destruct m as [a|e]; cbn; [eauto | discriminate]. Qed.

(** Strings: [+:+] does not simplify, so its equations are stated. *)

Lemma string_app_nil (t : string) : "" +:+ t = t.
Proof. reflexivity. Qed.

Lemma string_app_cons (c : ascii) (s t : string) :
  String c s +:+ t = String c (s +:+ t).
Proof. reflexivity. Qed.

Lemma string_length_app (s t : string) :
  String.length (s +:+ t) = (String.length s + String.length t)%nat.
Proof.
  induction s as [|c s IH]; [reflexivity|].
  rewrite string_app_cons. simpl. now rewrite IH.
Qed.

Lemma string_app_inj_tail (s1 s2 t1 t2 : string) :
  String.length t1 = String.length t2 ->
  s1 +:+ t1 = s2 +:+ t2 -> s1 = s2 /\ t1 = t2.
Proof.
  intros Hlen. revert s2.
  induction s1 as [|c s1 IH]; intros [|c' s2] H;
    rewrite ?string_app_nil, ?string_app_cons in H.
  - auto.
  - exfalso. rewrite H in Hlen. simpl in Hlen.
    rewrite string_length_app in Hlen. lia.
  - exfalso. rewrite <- H in Hlen. simpl in Hlen.
    rewrite string_length_app in Hlen. lia.
  - injection H as -> H. destruct (IH _ H) as [-> ->]. auto.
Qed.


(** ** utils/data_fetcher.py *)

Module DataFetcherFacts.
Import DataFetcher.



(** No early exit produces the fall-through outcome. *)
Lemma attempt_step_Stop_not_max (n d : Z) (i : nat) (g : get_result)
  (o : outcome) :
  attempt_step n d i g = Stop o -> o <> ReturnedMaxRetries.
Proof.
  unfold attempt_step, sleep_then_continue.
  destruct g as [r| |msg].
  - destruct (status_code r =? 200).
    + destruct (body r); intros [= <-]; discriminate.
    + destruct (status_code r =? 429).
      * destruct (retry_wait d (retry_after_header r)) as [secs|e];
          [destruct (sleep_ok secs)|]; intros [= <-]; discriminate.
      * intros [= <-]; discriminate.
  - destruct (Z.of_nat i <? n - 1); [destruct (sleep_ok d)|];
      intros [= <-]; discriminate.
  - intros [= <-]; discriminate.
Qed.











End DataFetcherFacts.

(** ** services/location_service.py *)

Module LocationServiceFacts.
Import DataFetcher LocationService.

Lemma py_get_Ok (k : string) (default v x : json) :
  py_get k default v = Ok x ->
  exists d, v = JDict d /\
            x = match dict_get k d with Some y => y | None => default end.
Proof.
  destruct v; cbn [py_get]; try discriminate.
  intros H. exists d. split; [reflexivity|].
  destruct (dict_get k d); now injection H.
Qed.

Lemma py_getitem_Ok (k : string) (v x : json) :
  py_getitem k v = Ok x -> exists d, v = JDict d /\ dict_get k d = Some x.
Proof.
  destruct v; cbn [py_getitem]; try discriminate.
  destruct (dict_get k d) eqn:E; [intros [= <-]; eauto | discriminate].
Qed.

Lemma present_passed_through (k : string) (d result : list (string * json)) :
  dict_get k d = Some (dict_get_none k result) ->
  present k d = present k result.
Proof.
  unfold present, dict_get_none. intros ->.
  now destruct (dict_get k result) as [[]|].
Qed.

(** What ["error" in v] holding says of [v]. *)
Lemma py_in_error_true (v : json) :
  py_in "error" v = Ok true ->
  is_error_dict v = true \/
  (exists l, v = JList l /\ In (JStr "error") l) \/
  (exists s, v = JStr s /\ is_substring "error" s = true).
Proof.
  destruct v as [| | |s|l|d]; cbn [py_in is_error_dict]; try discriminate;
    intros [= H].
  - right; right. now exists s.
  - right; left. exists l. split; [reflexivity|].
    apply existsb_exists in H as (x & Hin & Hx).
    destruct x; try discriminate. apply String.eqb_eq in Hx. now subst.
  - now left.
Qed.

(** A provider body that is a list naming ["error"] is handed back as it
    is: it is neither an error dict nor a location record. *)
Lemma get_location_data_hands_back_list (postcode : string) :
  get_location_data (fun _ => ok_body (JList [JStr "error"])) postcode
  = Ok (JList [JStr "error"]).
Proof. reflexivity. Qed.

(** C7 (as amended): whatever the provider answers, a value returned by
    [get_location_data] is the fetched value itself, handed back because
    ["error" in] it holds (an error dict, a list with the string
    ["error"] among its elements, or a string that contains it), the
    bad-response-shape error, or a location record whose latitude and
    longitude are the provider result's own entries ([None] where the
    result has none): each coordinate is present in the record exactly if
    it is present in the provider's result. *)
Theorem get_location_data_coordinates (net : network) (postcode : string)
  (v : json) :
  get_location_data net postcode = Ok v ->
  (v = get_json_data net /\
   (is_error_dict v = true \/
    (exists l, v = JList l /\ In (JStr "error") l) \/
    (exists s, v = JStr s /\ is_substring "error" s = true))) \/
  v = error_dict "Unexpected API response format" \/
  exists resp result d,
    get_json_data net = JDict resp /\
    dict_get "result" resp = Some (JDict result) /\
    v = JDict d /\
    dict_get "latitude" d = Some (dict_get_none "latitude" result) /\
    dict_get "longitude" d = Some (dict_get_none "longitude" result) /\
    present "latitude" d = present "latitude" result /\
    present "longitude" d = present "longitude" result.
Proof.
  unfold get_location_data. intros H.
  apply res_bind_Ok in H as (has_error & Herr & H).
  destruct has_error.
  { injection H as <-. left. split; [reflexivity|].
    now apply py_in_error_true. }
  apply res_bind_Ok in H as (has_result & Hres & H).
  destruct has_result; cbn [negb] in H; [|injection H as <-; now right; left].
  apply res_bind_Ok in H as (result & Hitem & H).
  apply py_getitem_Ok in Hitem as (resp & Hresp & Hresult).
  apply res_bind_Ok in H as (r_postcode & Hpc & H).
  apply py_get_Ok in Hpc as (rd & -> & _).
  apply res_bind_Ok in H as (r_lat & Hlat & H).
  apply res_bind_Ok in H as (r_lon & Hlon & H).
  cbn [py_get] in Hlat, Hlon.
  assert (Elat : r_lat = dict_get_none "latitude" rd)
    by (unfold dict_get_none; destruct (dict_get "latitude" rd);
        now injection Hlat).
  assert (Elon : r_lon = dict_get_none "longitude" rd)
    by (unfold dict_get_none; destruct (dict_get "longitude" rd);
        now injection Hlon).
  repeat (apply res_bind_Ok in H as (? & _ & H)).
  injection H as <-. right; right.
  eexists resp, rd, _. split; [exact Hresp|]. split; [exact Hresult|].
  split; [reflexivity|].
  split; [cbn; now rewrite Elat|]. split; [cbn; now rewrite Elon|].
  split; apply present_passed_through; cbn; congruence.
Qed.

Lemma get_location_data_coordinates_witness :
  exists d, get_location_data latitude_only "SW1A 1AA" = Ok (JDict d) /\
            present "latitude" d = true /\ present "longitude" d = false.
Proof.
  destruct (get_location_data_coordinates latitude_only "SW1A 1AA"
              (match get_location_data latitude_only "SW1A 1AA" with
               | Ok v => v
               | Raise _ => JNull
               end) eq_refl)
    as [[_ [H|[(l & H & _)|(s & H & _)]]]
       |[H|(resp & result & d & Hresp & Hresult & Hv & _ & _ & Hlat & Hlon)]].
  - discriminate H.
  - discriminate H.
  - discriminate H.
  - discriminate H.
  - exists d. split; [now rewrite <- Hv|].
    injection Hresp as <-. injection Hresult as <-.
    rewrite Hlat, Hlon. split; reflexivity.
Defined.

(** C7, counterexample: a provider result with a latitude and no
    longitude comes back as a record with exactly one coordinate. *)
Lemma coordinates_paired_fails :
  ~ coordinates_paired latitude_only "SW1A 1AA".
Proof.
  intros (v & Hv & [Herr|(d & -> & Hpair)]).
  - vm_compute in Hv. injection Hv as <-. discriminate Herr.
  - vm_compute in Hv. injection Hv as <-. discriminate Hpair.
Qed.

End LocationServiceFacts.

(** ** services/crime_service.py *)

Module CrimeServiceFacts.
Import DataFetcher CrimeService.

Lemma wrap_month_exits (m y : Z) :
  0 < fst (wrap_month (Z.to_nat (1 - m)) m y).
Proof.
  remember (Z.to_nat (1 - m)) as fuel eqn:Hf.
  assert (Hle : (Z.to_nat (1 - m) <= fuel)%nat) by lia. clear Hf.
  revert m y Hle. induction fuel as [|fuel IH]; intros m y Hle; cbn [wrap_month].
  - cbn. lia.
  - destruct (Z.leb_spec m 0); [|cbn; lia]. apply IH. lia.
Qed.

Lemma month_of_months_back (today : date_now) (i : nat) :
  1 <= today_month today <= 12 -> (i < 12)%nat ->
  month_of today i = months_back (today_year today) (today_month today) i.
Proof.
  intros Hm Hi. unfold month_of, months_back.
  set (m := today_month today - Z.of_nat i). set (y := today_year today).
  destruct (Z.le_gt_cases m 0) as [Hneg|Hpos].
  - destruct (Z.to_nat (1 - m)) as [|fuel] eqn:Hf; [lia|].
    cbn [wrap_month]. destruct (Z.leb_spec m 0); [|lia].
    assert (Hw : wrap_month fuel (m + 12) (y - 1) = (m + 12, y - 1)).
    { destruct fuel; cbn [wrap_month]; [reflexivity|].
      destruct (Z.leb_spec (m + 12) 0); [lia | reflexivity]. }
    rewrite Hw.
    replace (12 * y + (today_month today - 1) - Z.of_nat i)
      with ((m + 11) + (y - 1) * 12) by lia.
    rewrite Z_mod_plus_full, Z_div_plus_full by lia.
    rewrite Z.mod_small, Z.div_small by lia. f_equal; lia.
  - replace (Z.to_nat (1 - m)) with 0%nat by lia. cbn [wrap_month].
    replace (12 * y + (today_month today - 1) - Z.of_nat i)
      with ((m - 1) + y * 12) by lia.
    rewrite Z_mod_plus_full, Z_div_plus_full by lia.
    rewrite Z.mod_small, Z.div_small by lia. f_equal; lia.
Qed.

Lemma fmt_02d_two_digits (m : Z) :
  1 <= m <= 12 -> fmt_02d m = two_digits m.
Proof.
  intros Hm.
  assert (H : m = 1 \/ m = 2 \/ m = 3 \/ m = 4 \/ m = 5 \/ m = 6 \/ m = 7 \/
              m = 8 \/ m = 9 \/ m = 10 \/ m = 11 \/ m = 12) by lia.
  repeat (destruct H as [->|H]; [vm_compute; reflexivity|]).
  subst. vm_compute. reflexivity.
Qed.

Lemma two_digits_inj (m m' : Z) :
  1 <= m <= 12 -> 1 <= m' <= 12 -> two_digits m = two_digits m' -> m = m'.
Proof.
  intros Hm Hm'.
  assert (H : m = 1 \/ m = 2 \/ m = 3 \/ m = 4 \/ m = 5 \/ m = 6 \/ m = 7 \/
              m = 8 \/ m = 9 \/ m = 10 \/ m = 11 \/ m = 12) by lia.
  assert (H' : m' = 1 \/ m' = 2 \/ m' = 3 \/ m' = 4 \/ m' = 5 \/ m' = 6 \/
               m' = 7 \/ m' = 8 \/ m' = 9 \/ m' = 10 \/ m' = 11 \/ m' = 12)
    by lia.
  clear Hm Hm'.
  repeat (destruct H as [->|H]);
    try subst m; repeat (destruct H' as [->|H']); try subst m';
    vm_compute; intros E; try reflexivity; discriminate E.
Qed.

Lemma pretty_year_length (y : Z) :
  1000 <= y <= 9999 -> String.length (pretty y) = 4%nat.
Proof.
  intros Hy. destruct y as [|p|p]; try lia.
  change (pretty (Z.pos p)) with (pretty (N.pos p)).
  unfold pretty, pretty_N. destruct (decide (N.pos p = 0)%N); [lia|].
  rewrite pretty_N_go_step by lia.
  rewrite pretty_N_go_step by (apply N.div_str_pos; lia).
  rewrite pretty_N_go_step
    by (apply N.div_str_pos; split; [lia|]; apply N.div_le_lower_bound; lia).
  rewrite pretty_N_go_step
    by (apply N.div_str_pos; split; [lia|]; apply N.div_le_lower_bound; [lia|];
        apply N.div_le_lower_bound; lia).
  replace (N.pos p / 10 / 10 / 10 / 10)%N with 0%N.
  - rewrite pretty_N_go_0. reflexivity.
  - symmetry. rewrite !N.Div0.div_div. apply N.div_small. lia.
Qed.

Section Iteration.
Variables (prov : provider) (latitude longitude radius : Q) (today : date_now).

Let resp := month_response prov latitude longitude radius today.
Let req (i : nat) := build_request latitude longitude radius (date_str_of today i).

Lemma monthly_loop_requests (idxs : list nat) (m : gmap string json) :
  requests_of (snd (monthly_loop prov latitude longitude radius today idxs m))
  = map req idxs.
Proof.
  revert m. induction idxs as [|i idxs IH]; intros m; cbn [monthly_loop].
  - reflexivity.
  - match goal with
    | |- context [monthly_loop _ _ _ _ _ idxs ?m'] =>
        specialize (IH m');
        destruct (monthly_loop prov latitude longitude radius today idxs m')
          as [m'' tr]
    end.
    cbn [snd] in *. cbn [requests_of flat_map app map]. fold (requests_of tr).
    now rewrite IH.
Qed.

Lemma monthly_loop_size (idxs : list nat) (m : gmap string json) :
  (size (fst (monthly_loop prov latitude longitude radius today idxs m))
   <= size m + length idxs)%nat.
Proof.
  revert m. induction idxs as [|i idxs IH]; intros m; cbn [monthly_loop].
  - cbn. lia.
  - match goal with
    | |- context [monthly_loop _ _ _ _ _ idxs ?m'] =>
        specialize (IH m');
        assert (Hm' : (size m' <= S (size m))%nat);
        [|destruct (monthly_loop prov latitude longitude radius today idxs m')
            as [m'' tr]]
    end.
    + destruct (valid_response _); [|lia].
      rewrite map_size_insert. destruct (m !! _); unfold id; lia.
    + cbn [fst length] in *. lia.
Qed.

Lemma monthly_loop_lookup (idxs : list nat) :
  NoDup idxs ->
  (forall i j, In i idxs -> In j idxs ->
               date_str_of today i = date_str_of today j -> i = j) ->
  forall (m : gmap string json) (k : string) (v : json),
    fst (monthly_loop prov latitude longitude radius today idxs m) !! k
    = Some v <->
    (exists i, In i idxs /\ k = date_str_of today i /\
               valid_response (resp i) = true /\ v = resp i) \/
    (m !! k = Some v /\
     forall i, In i idxs -> k = date_str_of today i ->
               valid_response (resp i) = false).
Proof.
  induction idxs as [|i idxs IH]; intros Hnd Hinj m k v.
  - cbn [monthly_loop fst]. split.
    + intros H. right. split; [exact H | intros i []].
    + intros [(i & [] & _)|[H _]]. exact H.
  - apply NoDup_cons in Hnd as [Hni Hnd].
    assert (Hinj' : forall a b, In a idxs -> In b idxs ->
              date_str_of today a = date_str_of today b -> a = b)
      by (intros a b Ha Hb; apply Hinj; now right).
    specialize (IH Hnd Hinj').
    cbn [monthly_loop]. fold (req i). fold (resp i).
    change (get_crime_data_for_date (prov i (req i))) with (resp i).
    match goal with
    | |- context [monthly_loop _ _ _ _ _ idxs ?m'] =>
        specialize (IH m' k v);
        destruct (monthly_loop prov latitude longitude radius today idxs m')
          as [m'' tr]
    end.
    cbn [fst] in *. rewrite IH. clear IH.
    destruct (valid_response (resp i)) eqn:Hv.
    + split.
      * intros [(j & Hj & Hk & Hvj & Hr)|[Hl Hall]].
        -- left. exists j. split; [now right | auto].
        -- destruct (decide (date_str_of today i = k)) as [E|N].
           ++ rewrite E, lookup_insert_eq in Hl. injection Hl as <-.
              left. exists i. split; [now left | auto].
           ++ rewrite lookup_insert_ne in Hl by exact N.
              right. split; [exact Hl|]. intros j [<-|Hj] Hk;
                [congruence | now apply Hall].
      * intros [(j & [<-|Hj] & Hk & Hvj & Hr)|[Hl Hall]].
        -- right. subst k v. split; [apply lookup_insert_eq|].
           intros j Hj E. apply Hinj in E; [|now left | now right].
           subst j. exfalso. now apply Hni, list_elem_of_In.
        -- left. exists j. auto.
        -- assert (N : date_str_of today i <> k).
           { intros E. rewrite (Hall i) in Hv; [discriminate | now left | auto]. }
           right. split; [now rewrite lookup_insert_ne|].
           intros j Hj. apply Hall. now right.
    + split.
      * intros [(j & Hj & Hk & Hvj & Hr)|[Hl Hall]].
        -- left. exists j. split; [now right | auto].
        -- right. split; [exact Hl|]. intros j [<-|Hj] Hk;
             [exact Hv | now apply Hall].
      * intros [(j & [<-|Hj] & Hk & Hvj & Hr)|[Hl Hall]].
        -- congruence.
        -- left. exists j. auto.
        -- right. split; [exact Hl|]. intros j Hj. apply Hall. now right.
Qed.

End Iteration.

Lemma months_back_range (year month : Z) (i : nat) :
  1 <= fst (months_back year month i) <= 12.
Proof.
  unfold months_back. cbn [fst].
  pose proof (Z.mod_pos_bound (12 * year + (month - 1) - Z.of_nat i) 12).
  lia.
Qed.

Lemma date_str_of_closed (today : date_now) (i : nat) :
  1 <= today_month today <= 12 -> (i < 12)%nat ->
  date_str_of today i =
  pretty (snd (months_back (today_year today) (today_month today) i))
  +:+ "-"
  +:+ two_digits (fst (months_back (today_year today) (today_month today) i)).
Proof.
  intros Hm Hi. unfold date_str_of. rewrite month_of_months_back by assumption.
  pose proof (months_back_range (today_year today) (today_month today) i) as Hr.
  destruct (months_back (today_year today) (today_month today) i) as [m y].
  cbn [fst snd] in *. now rewrite fmt_02d_two_digits.
Qed.

Lemma date_str_of_inj (today : date_now) (i j : nat) :
  1 <= today_month today <= 12 -> (i < 12)%nat -> (j < 12)%nat ->
  date_str_of today i = date_str_of today j -> i = j.
Proof.
  intros Hm Hi Hj. rewrite !date_str_of_closed by assumption.
  pose proof (months_back_range (today_year today) (today_month today) i) as Ri.
  pose proof (months_back_range (today_year today) (today_month today) j) as Rj.
  unfold months_back in *. cbn [fst snd] in *.
  set (ni := 12 * today_year today + (today_month today - 1) - Z.of_nat i) in *.
  set (nj := 12 * today_year today + (today_month today - 1) - Z.of_nat j) in *.
  intros E. apply string_app_inj_tail in E as [Ey Em]; [|reflexivity].
  apply (inj pretty) in Ey.
  rewrite !string_app_cons, !string_app_nil in Em. injection Em as Em.
  assert (Emod : ni mod 12 + 1 = nj mod 12 + 1).
  { apply two_digits_inj; [assumption..|].
    unfold two_digits. congruence. }
  assert (ni = nj).
  { rewrite (Z.div_mod ni 12), (Z.div_mod nj 12) by lia. lia. }
  subst ni nj. lia.
Qed.

Section Combined.
Variables (prov : provider) (latitude longitude radius : Q) (today : date_now).

Let resp := month_response prov latitude longitude radius today.
Let req (i : nat) := build_request latitude longitude radius (date_str_of today i).

Lemma crime_loop_run (idxs : list nat) (all_crimes : list json) :
  (forall i, In i idxs -> valid_response (resp i) = true ->
             exists items, iter_items (resp i) = Ok items) ->
  fst (crime_loop prov latitude longitude radius today idxs all_crimes)
  = Ok (all_crimes ++ flat_map (fun i => month_items (resp i)) idxs) /\
  requests_of
    (snd (crime_loop prov latitude longitude radius today idxs all_crimes))
  = map req idxs.
Proof.
  revert all_crimes. induction idxs as [|i idxs IH]; intros all_crimes Hit.
  - cbn. now rewrite app_nil_r.
  - cbn [crime_loop flat_map map]. fold (req i).
    change (get_crime_data_for_date (prov i (req i))) with (resp i).
    assert (Hit' : forall j, In j idxs -> valid_response (resp j) = true ->
                             exists items, iter_items (resp j) = Ok items)
      by (intros j Hj; apply Hit; now right).
    unfold month_items at 1.
    destruct (valid_response (resp i)) eqn:Hv.
    + destruct (Hit i (or_introl eq_refl) Hv) as [items Hitems].
      rewrite Hitems.
      destruct (IH (all_crimes ++ items) Hit') as [Hf Hs].
      destruct (crime_loop prov latitude longitude radius today idxs
                  (all_crimes ++ items)) as [r tr].
      cbn [fst snd] in *. split.
      * now rewrite Hf, <- app_assoc.
      * cbn [requests_of flat_map app]. fold (requests_of tr). now rewrite Hs.
    + destruct (IH all_crimes Hit') as [Hf Hs].
      destruct (crime_loop prov latitude longitude radius today idxs
                  all_crimes) as [r tr].
      cbn [fst snd] in *. split.
      * now rewrite Hf.
      * cbn [requests_of flat_map app]. fold (requests_of tr). now rewrite Hs.
Qed.

End Combined.

(** *** The two entry points *)

(** C6 (as amended): from a fixed today of 2024-03 the months are 2024-03
    down to 2023-04, and from 2023-01 they are 2023-01 down to 2022-02;
    whatever the current month and whatever the provider answers, the
    loop of [get_last_year_monthly_data] issues exactly twelve requests,
    one for each of the twelve distinct calendar months ending at the
    current one, dated year-dash-two-digit-month, and a month whose
    answer is an error dict is left out of the mapping; the loop of
    [get_crime_data] (called without a date) issues the same twelve
    requests provided every answer that is not an error dict can be
    iterated over, and then a month whose answer is an error dict
    contributes nothing to the combined list, the other months contribute
    their items in order. *)
Theorem crime_twelve_months :
  map (date_str_of (DateNow 2024 3)) (seq 0 12)
  = ["2024-03"; "2024-02"; "2024-01"; "2023-12"; "2023-11"; "2023-10";
     "2023-09"; "2023-08"; "2023-07"; "2023-06"; "2023-05"; "2023-04"] /\
  map (date_str_of (DateNow 2023 1)) (seq 0 12)
  = ["2023-01"; "2022-12"; "2022-11"; "2022-10"; "2022-09"; "2022-08";
     "2022-07"; "2022-06"; "2022-05"; "2022-04"; "2022-03"; "2022-02"] /\
  forall (prov : provider) (latitude longitude radius : Q) (today : date_now),
    1 <= today_month today <= 12 ->
    let dates := map (date_str_of today) (seq 0 12) in
    let reqs := map (build_request latitude longitude radius) dates in
    let resp := month_response prov latitude longitude radius today in
    let monthly :=
      get_last_year_monthly_data prov latitude longitude radius today in
    let combined :=
      get_crime_data prov latitude longitude radius None today in
    length reqs = 12%nat /\
    NoDup dates /\
    (forall i, (i < 12)%nat ->
       let '(m, y) := months_back (today_year today) (today_month today) i in
       1 <= m <= 12 /\
       date_str_of today i = pretty y +:+ "-" +:+ two_digits m) /\
    requests_of (snd monthly) = reqs /\
    (forall i, (i < 12)%nat ->
       fst monthly !! date_str_of today i
       = if valid_response (resp i) then Some (resp i) else None) /\
    ((forall i, (i < 12)%nat -> valid_response (resp i) = true ->
                exists items, iter_items (resp i) = Ok items) ->
     fst combined
     = Ok (JList (flat_map (fun i => month_items (resp i)) (seq 0 12))) /\
     requests_of (snd combined) = reqs).
Proof.
  split; [vm_compute; reflexivity|]. split; [vm_compute; reflexivity|].
  intros prov latitude longitude radius today Hm dates reqs resp monthly
    combined.
  assert (Hinj : forall i j, In i (seq 0 12) -> In j (seq 0 12) ->
            date_str_of today i = date_str_of today j -> i = j).
  { intros i j Hi%in_seq Hj%in_seq. apply date_str_of_inj; [assumption|lia..]. }
  split; [subst reqs dates; now rewrite !length_map, length_seq|].
  split.
  { subst dates. apply NoDup_fmap_2_strong; [|apply NoDup_seq].
    intros i j Hi%list_elem_of_In Hj%list_elem_of_In. now apply Hinj. }
  split.
  { intros i Hi.
    pose proof (months_back_range (today_year today) (today_month today) i).
    pose proof (date_str_of_closed today i Hm Hi) as Hc.
    destruct (months_back (today_year today) (today_month today) i) as [m y].
    cbn [fst snd] in *. auto. }
  split.
  { subst monthly reqs dates. unfold get_last_year_monthly_data.
    rewrite monthly_loop_requests. now rewrite map_map. }
  split.
  { intros i Hi. subst monthly. unfold get_last_year_monthly_data.
    pose proof (monthly_loop_lookup prov latitude longitude radius today
                  (seq 0 12) (NoDup_seq 0 12) Hinj ∅) as Hl.
    fold resp in Hl.
    destruct (valid_response (resp i)) eqn:Hv.
    - apply Hl. left. exists i. split; [apply in_seq; lia | auto].
    - destruct (_ !! date_str_of today i) as [v|] eqn:E; [|reflexivity].
      apply Hl in E as [(j & Hj & Hk & Hvj & _)|[E _]].
      + apply Hinj in Hk; [|apply in_seq; lia | assumption].
        subst j. congruence.
      + rewrite lookup_empty in E. discriminate. }
  intros Hit. subst combined. unfold get_crime_data.
  destruct (crime_loop_run prov latitude longitude radius today (seq 0 12) [])
    as [Hf Hs].
  { intros i Hi%in_seq. apply Hit. lia. }
  fold resp in Hf.
  destruct (crime_loop prov latitude longitude radius today (seq 0 12) [])
    as [r tr].
  cbn [fst snd] in *. subst r. cbn [res_bind app]. split; [reflexivity|].
  subst reqs dates. now rewrite Hs, map_map.
Qed.

Lemma crime_twelve_months_witness :
  fst (get_crime_data one_month_down 51 0 1 None (DateNow 2024 3))
  = Ok (JList [JStr "2024-03"; JStr "2024-01"; JStr "2023-12"; JStr "2023-11";
               JStr "2023-10"; JStr "2023-09"; JStr "2023-08"; JStr "2023-07";
               JStr "2023-06"; JStr "2023-05"; JStr "2023-04"]).
Proof.
  destruct crime_twelve_months as (_ & _ & H).
  destruct (H one_month_down 51%Q 0%Q 1%Q (DateNow 2024 3))
    as (_ & _ & _ & _ & _ & Hc).
  - cbn. lia.
  - destruct Hc as [Hf _]; [|exact Hf].
    intros i Hi Hv.
    destruct (iter_items
                (month_response one_month_down 51 0 1 (DateNow 2024 3) i))
      as [items|e] eqn:E; [now exists items|].
    exfalso.
    do 12 (destruct i as [|i]; [vm_compute in E, Hv; congruence|]). lia.
Defined.

(** C6, counterexample: when the third month is answered with status 200
    and the JSON value [null], [get_crime_data] makes three requests and
    raises, so it does not issue the twelve. *)
Lemma twelve_requests_always_fails :
  ~ twelve_requests_always null_in_third_month 51 0 1 (DateNow 2024 3).
Proof.
  intros (_ & Hreqs & _).
  apply (f_equal (@length crime_request)) in Hreqs.
  vm_compute in Hreqs. discriminate Hreqs.
Qed.

(** C10: the mapping [get_last_year_monthly_data] returns has at most
    twelve keys; each key is the date string of one of the twelve months,
    a decimal year, a dash and a two-digit month between 01 and 12 (seven
    characters for a four-digit year), and its value is the provider's
    answer for that month, which is not an error dict; a month whose
    answer is an error dict has no key. *)
Theorem monthly_data_keys (prov : provider) (latitude longitude radius : Q)
  (today : date_now) :
  1 <= today_month today <= 12 ->
  let monthly :=
    fst (get_last_year_monthly_data prov latitude longitude radius today) in
  let resp := month_response prov latitude longitude radius today in
  (size monthly <= 12)%nat /\
  (forall k v, monthly !! k = Some v ->
     exists i, (i < 12)%nat /\
       let '(m, y) := months_back (today_year today) (today_month today) i in
       k = pretty y +:+ "-" +:+ two_digits m /\
       1 <= m <= 12 /\
       (1000 < today_year today <= 9999 ->
        String.length (pretty y) = 4%nat /\ String.length k = 7%nat) /\
       v = resp i /\ is_error_dict v = false) /\
  (forall i, (i < 12)%nat -> is_error_dict (resp i) = true ->
     monthly !! date_str_of today i = None).
Proof.
  intros Hm monthly resp.
  assert (Hinj : forall i j, In i (seq 0 12) -> In j (seq 0 12) ->
            date_str_of today i = date_str_of today j -> i = j).
  { intros i j Hi%in_seq Hj%in_seq. apply date_str_of_inj; [assumption|lia..]. }
  pose proof (monthly_loop_lookup prov latitude longitude radius today
                (seq 0 12) (NoDup_seq 0 12) Hinj ∅) as Hl.
  fold resp in Hl. split; [|split].
  - subst monthly. unfold get_last_year_monthly_data.
    pose proof (monthly_loop_size prov latitude longitude radius today
                  (seq 0 12) ∅) as Hs.
    rewrite map_size_empty, length_seq in Hs. exact Hs.
  - intros k v Hk. apply Hl in Hk as [(i & Hi%in_seq & -> & Hv & ->)|[E _]];
      [|rewrite lookup_empty in E; discriminate].
    exists i. split; [lia|].
    pose proof (months_back_range (today_year today) (today_month today) i)
      as Hr.
    assert (Hi' : (i < 12)%nat) by lia.
    pose proof (date_str_of_closed today i Hm Hi') as Hc.
    assert (Hy : today_year today - 1
                 <= snd (months_back (today_year today) (today_month today) i)
                 <= today_year today).
    { unfold months_back. cbn [snd]. split.
      - apply Z.div_le_lower_bound; lia.
      - apply Z.lt_succ_r, Z.div_lt_upper_bound; lia. }
    destruct (months_back (today_year today) (today_month today) i) as [m y].
    cbn [fst snd] in *. split; [exact Hc|]. split; [exact Hr|].
    split; [|split; [reflexivity|]].
    + intros Hyear.
      assert (Hlen : String.length (pretty y) = 4%nat)
        by (apply pretty_year_length; lia).
      split; [exact Hlen|].
      rewrite Hc, !string_length_app, Hlen. reflexivity.
    + unfold valid_response in Hv. now apply negb_true_iff in Hv.
  - intros i Hi He.
    destruct (monthly !! date_str_of today i) as [v|] eqn:E; [|reflexivity].
    apply Hl in E as [(j & Hj & Hk & Hvj & _)|[E _]].
    + apply Hinj in Hk; [|apply in_seq; lia | assumption]. subst j.
      unfold valid_response in Hvj. rewrite He in Hvj. discriminate.
    + rewrite lookup_empty in E. discriminate.
Qed.

Lemma monthly_data_keys_witness :
  fst (get_last_year_monthly_data one_month_down 51 0 1 (DateNow 2024 3))
    !! "2024-02" = None.
Proof.
  destruct (monthly_data_keys one_month_down 51 0 1 (DateNow 2024 3))
    as (_ & _ & H).
  - cbn. lia.
  - apply (H 1%nat); [lia | reflexivity].
Defined.

End CrimeServiceFacts.

(** ** services/flood_service.py: risk tier *)

Module FloodRiskFacts.
Import FloodRisk.

(** C1: on the square ring [(0,0),(0,10),(10,10),(10,0)] the ray-casting
    routine classifies (5,5) as inside and (15,15) as outside. *)
Theorem point_in_polygon_square :
  point_in_polygon (5, 5)%Q square = Ok true /\
  point_in_polygon (15, 15)%Q square = Ok false.
Proof. split; vm_compute; reflexivity. Qed.

(** *** The routine never reads [xinters] unbound *)

Lemma pip_body_total (x y : Q) (st : pip_state) (p2 : point) :
  exists st', pip_body x y st p2 = Ok st'.
Proof.
  destruct st as [ins [p1x p1y] xi], p2 as [p2x p2y].
  unfold pip_body; cbn [p1 inside xinters].
  destruct (Qlt_bool (py_min p1y p2y) y) eqn:Hmin; [|eauto].
  destruct (Qle_bool y (py_max p1y p2y)) eqn:Hmax; [|eauto].
  destruct (Qle_bool x (py_max p1x p2x)); [|eauto].
  destruct (Qeq_bool p1x p2x); [eauto|].
  destruct (Qeq_bool p1y p2y) eqn:Hy; cbn [negb].
  - exfalso. revert Hmin Hmax. unfold py_min, py_max.
    destruct (Qlt_bool p2y p1y) eqn:H1, (Qlt_bool p1y p2y) eqn:H2;
      intros Hmin Hmax; qprop; lra.
  - destruct (Qle_bool x _); eauto.
Qed.

Lemma pip_loop_total (x y : Q) (polygon : ring) (idxs : list nat) :
  polygon <> [] ->
  forall st, exists st',
    pip_loop x y polygon (length polygon) idxs st = Ok st'.
Proof.
  intros Hne. induction idxs as [|i idxs IH]; intros st; cbn [pip_loop]; [eauto|].
  destruct (lookup_lt_is_Some_2 polygon (i mod length polygon)%nat)
    as [p2 Hp2].
  { apply Nat.mod_upper_bound. destruct polygon; cbn; [congruence | lia]. }
  rewrite Hp2.
  destruct (pip_body_total x y st p2) as [st' Hst']. rewrite Hst'.
  cbn [res_bind].
  apply IH.
Qed.

Lemma point_in_polygon_total (pt : point) (polygon : ring) :
  polygon <> [] -> exists b, point_in_polygon pt polygon = Ok b.
Proof.
  intros Hne. destruct pt as [x y]. unfold point_in_polygon.
  destruct polygon as [|first rest]; [congruence|].
  change ((first :: rest) !! 0%nat) with (Some first).
  destruct (pip_loop_total x y (first :: rest)
              (seq 0 (length (first :: rest) + 1)) Hne
              (PipState false first None)) as [st Hst].
  rewrite Hst. cbn. eauto.
Qed.

(** *** What the three nested scans compute *)

Lemma scan_rings_spec (pt : point) (rings : list ring) (flag b : bool) :
  scan_rings pt rings flag = Ok b ->
  (b = true <->
   flag = true \/ exists r, In r rings /\ point_in_polygon pt r = Ok true).
Proof.
  induction rings as [|r rings IH]; cbn [scan_rings]; intros H.
  - injection H as <-. split; [auto | intros [?|(r & [] & _)]; auto].
  - apply res_bind_Ok in H as (hit & Hhit & H). destruct hit.
    + injection H as <-. split; [|reflexivity].
      intros _. right. exists r. split; [now left | exact Hhit].
    + rewrite (IH H). split.
      * intros [?|(r' & Hin & Hr')]; [now left|].
        right. exists r'. split; [now right | exact Hr'].
      * intros [?|(r' & [<-|Hin] & Hr')]; [now left | congruence |].
        right. now exists r'.
Qed.

Lemma scan_polygons_spec (pt : point) (polys : list (list ring))
  (flag b : bool) :
  scan_polygons pt polys flag = Ok b ->
  (b = true <->
   flag = true \/
   exists r, In r (concat polys) /\ point_in_polygon pt r = Ok true).
Proof.
  revert flag. induction polys as [|p polys IH]; cbn [scan_polygons concat];
    intros flag H.
  - injection H as <-. split; [auto | intros [?|(r & [] & _)]; auto].
  - apply res_bind_Ok in H as (flag' & Hp & H).
    rewrite (IH _ H), (scan_rings_spec _ _ _ _ Hp). split.
    + intros [[?|(r & Hin & Hr)]|(r & Hin & Hr)]; [now left | right..];
        exists r; (split; [apply in_or_app; auto | exact Hr]).
    + intros [?|(r & Hin & Hr)]; [now left; left|].
      apply in_app_or in Hin as [Hin|Hin];
        [left; right | right]; now exists r.
Qed.

Lemma scan_geometry_spec (pt : point) (f : feature) (flag b : bool) :
  match feature_geometry f with
  | Polygon c => scan_rings pt c flag
  | MultiPolygon c => scan_polygons pt c flag
  | OtherGeometry => Ok flag
  end = Ok b ->
  (b = true <->
   flag = true \/
   exists r, In r (rings_of f) /\ point_in_polygon pt r = Ok true).
Proof.
  unfold rings_of. destruct (feature_geometry f) as [c|c|]; intros H.
  - now apply scan_rings_spec.
  - now apply scan_polygons_spec.
  - injection H as <-. split; [auto | intros [?|(r & [] & _)]; auto].
Qed.

Lemma scan_features_spec (pt : point) (fs : list feature) (flag b : bool) :
  scan_features pt fs flag = Ok b ->
  (b = true <-> flag = true \/ inside_some_ring pt fs).
Proof.
  unfold inside_some_ring.
  revert flag. induction fs as [|f fs IH]; cbn [scan_features];
    intros flag H.
  - injection H as <-. split; [auto | intros [?|(f & r & [] & _)]; auto].
  - apply res_bind_Ok in H as (flag' & Hg & H).
    apply scan_geometry_spec in Hg. destruct flag'.
    + injection H as <-. split; [|reflexivity]. intros _.
      destruct (proj1 Hg eq_refl) as [?|(r & Hin & Hr)]; [now left|].
      right. exists f, r. split; [now left | auto].
    + rewrite (IH _ H). split.
      * intros [?|(f' & r & Hin & Hr)]; [discriminate|].
        right. exists f', r. split; [now right | exact Hr].
      * intros [Hf|(f' & r & [<-|Hin] & Hr)].
        -- assert (false = true) by (apply Hg; now left). discriminate.
        -- assert (false = true) by (apply Hg; right; now exists r).
           discriminate.
        -- right. now exists f', r.
Qed.

(** *** Well-formed rings make the scans total *)

Lemma scan_rings_total (pt : point) (rings : list ring) (flag : bool) :
  (forall r, In r rings -> r <> []) ->
  exists b, scan_rings pt rings flag = Ok b.
Proof.
  induction rings as [|r rings IH]; cbn [scan_rings]; intros Hne; [eauto|].
  destruct (point_in_polygon_total pt r) as [hit ->];
    [apply Hne; now left|]. cbn [res_bind].
  destruct hit; [eauto|]. apply IH. intros r' Hin. apply Hne. now right.
Qed.

Lemma scan_polygons_total (pt : point) (polys : list (list ring))
  (flag : bool) :
  (forall r, In r (concat polys) -> r <> []) ->
  exists b, scan_polygons pt polys flag = Ok b.
Proof.
  revert flag. induction polys as [|p polys IH];
    cbn [scan_polygons concat]; intros flag Hne; [eauto|].
  destruct (scan_rings_total pt p flag) as [flag' ->].
  { intros r Hin. apply Hne, in_or_app. now left. }
  cbn [res_bind]. apply IH. intros r Hin. apply Hne, in_or_app. now right.
Qed.

Lemma scan_features_total (pt : point) (fs : list feature) (flag : bool) :
  rings_nonempty fs -> exists b, scan_features pt fs flag = Ok b.
Proof.
  unfold rings_nonempty.
  revert flag. induction fs as [|f fs IH]; cbn [scan_features];
    intros flag Hne; [eauto|].
  assert (Hf : forall r, In r (rings_of f) -> r <> [])
    by (intros r; apply Hne; now left).
  assert (Hg : exists b,
             match feature_geometry f with
             | Polygon c => scan_rings pt c flag
             | MultiPolygon c => scan_polygons pt c flag
             | OtherGeometry => Ok flag
             end = Ok b).
  { unfold rings_of in Hf. destruct (feature_geometry f) as [c|c|];
      [now apply scan_rings_total | now apply scan_polygons_total | eauto]. }
  destruct Hg as [flag' ->]. cbn [res_bind]. destruct flag'; [eauto|].
  apply IH. intros f' r Hin. apply Hne. now right.
Qed.

(** C2: the tier [get_flood_risk_description] assigns is "high" exactly
    when the point is inside a ring of some Zone 3 feature (whatever
    Zone 2 says), "medium" exactly when it is inside a Zone 2 ring and no
    Zone 3 ring, "low" otherwise; one of the three is assigned, and a
    tier is assigned for every bundle whose rings have a vertex. *)
Theorem flood_risk_tier_precedence (fd : flood_data) (longitude latitude : Q) :
  (rings_nonempty (flood_zone_3 fd) -> rings_nonempty (flood_zone_2 fd) ->
   exists d, get_flood_risk_description fd longitude latitude = Ok d) /\
  (forall d, get_flood_risk_description fd longitude latitude = Ok d ->
     let pt := (longitude, latitude) in
     (risk_level d = "high" <-> inside_some_ring pt (flood_zone_3 fd)) /\
     (risk_level d = "medium" <->
        inside_some_ring pt (flood_zone_2 fd) /\
        ~ inside_some_ring pt (flood_zone_3 fd)) /\
     (risk_level d = "low" <->
        ~ inside_some_ring pt (flood_zone_2 fd) /\
        ~ inside_some_ring pt (flood_zone_3 fd)) /\
     (risk_level d = "high" \/ risk_level d = "medium" \/
      risk_level d = "low")).
Proof.
  unfold get_flood_risk_description, check_point_in_flood_zones. split.
  - intros H3 H2.
    destruct (scan_features_total (longitude, latitude) _ false H3)
      as [z3 ->]. cbn [res_bind].
    destruct z3; cbn [negb res_bind]; [eauto|].
    destruct (scan_features_total (longitude, latitude) _ false H2)
      as [z2 ->]. cbn [res_bind]. destruct z2; eauto.
  - intros d H. set (pt := (longitude, latitude)) in *.
    apply res_bind_Ok in H as ([z2 z3] & Hzs & Hd).
    apply res_bind_Ok in Hzs as (z3' & H3 & Hzs).
    apply scan_features_spec in H3.
    destruct z3'; cbn [negb] in Hzs.
    + injection Hzs as <- <-. injection Hd as <-. cbn [risk_level].
      assert (I3 : inside_some_ring pt (flood_zone_3 fd)).
      { destruct (proj1 H3 eq_refl); [discriminate | assumption]. }
      repeat split; auto; try discriminate; tauto.
    + apply res_bind_Ok in Hzs as (z2' & H2 & Hzs).
      injection Hzs as <- <-.
      apply scan_features_spec in H2.
      assert (N3 : ~ inside_some_ring pt (flood_zone_3 fd)).
      { intros I3. assert (false = true) by (apply H3; now right).
        discriminate. }
      destruct z2'; injection Hd as <-; cbn [risk_level].
      * assert (I2 : inside_some_ring pt (flood_zone_2 fd)).
        { destruct (proj1 H2 eq_refl); [discriminate | assumption]. }
        repeat split; auto; try discriminate; tauto.
      * assert (N2 : ~ inside_some_ring pt (flood_zone_2 fd)).
        { intros I2. assert (false = true) by (apply H2; now right).
          discriminate. }
        repeat split; auto; try discriminate; tauto.
Qed.

Lemma flood_risk_tier_precedence_witness :
  exists d, get_flood_risk_description overlapping_zones 5 5 = Ok d /\
            risk_level d = "high".
Proof.
  destruct (flood_risk_tier_precedence overlapping_zones 5 5)
    as [Htotal Htier].
  destruct Htotal as [d Hd].
  - intros f r [<-|[]] [<-|[]]. discriminate.
  - intros f r [<-|[]] [<-|[]]. discriminate.
  - exists d. split; [exact Hd|].
    apply (Htier d Hd). exists (Feature (MultiPolygon [[square]])), square.
    split; [now left|]. split; [now left|]. vm_compute. reflexivity.
Defined.

End FloodRiskFacts.

(** ** services/flood_service.py: the flood-data bundle *)

Module FloodServiceFacts.
Import DataFetcher FloodService.

(** Every failing exit of [make_request] hands back an error value. *)
Lemma make_request_failure_value (net : network) (max_retries retry_delay : Z) :
  match fst (make_request_run net max_retries retry_delay) with
  | ReturnedBody _ | Raised _ => True
  | _ => exists msg rest,
           make_request net max_retries retry_delay
           = Ok (JDict (("error", JStr msg) :: rest))
  end.
Proof.
  unfold make_request.
  destruct (fst (make_request_run net max_retries retry_delay));
    cbn [outcome_value]; unfold error_dict; eauto.
Qed.

Lemma get_flood_warnings_failed (net : network) (msg : string) :
  failed_with net msg -> get_flood_warnings net = error_dict msg.
Proof.
  intros [rest H]. unfold get_flood_warnings, flood_warnings_body.
  rewrite H. reflexivity.
Qed.

Lemma get_stations_failed (net : network) (msg : string) :
  failed_with net msg ->
  get_nearby_flood_monitoring_stations net = error_dict msg.
Proof.
  intros [rest H].
  unfold get_nearby_flood_monitoring_stations, flood_stations_body.
  rewrite H. reflexivity.
Qed.

(** C3 (as amended): a transport failure of the flood-warnings fetch or of
    the monitoring-stations fetch is not turned into a top-level error:
    whether [get_flood_data] returns an error or a bundle does not depend
    on what these two fetches get, and the bundle carries each sub-fetch's
    own result, which for a failed fetch is its error value. *)
Theorem get_flood_data_sub_fetch_failures (fuel : nat) (fn : flood_network)
  (latitude longitude radius_km : Q) (v : json) :
  get_flood_data fuel fn latitude longitude radius_km = Some v ->
  (forall wn sn, exists v',
     get_flood_data fuel (FloodNetwork (zone_net fn) wn sn)
       latitude longitude radius_km = Some v' /\
     is_error_dict v' = is_error_dict v) /\
  (is_error_dict v = false ->
   exists d, v = JDict d /\
     dict_get "flood_warnings" d
     = Some (get_flood_warnings (warnings_net fn)) /\
     dict_get "flood_metrics" d
     = Some (get_nearby_flood_monitoring_stations (stations_net fn))) /\
  (forall msg, failed_with (warnings_net fn) msg ->
     get_flood_warnings (warnings_net fn) = error_dict msg) /\
  (forall msg, failed_with (stations_net fn) msg ->
     get_nearby_flood_monitoring_stations (stations_net fn) = error_dict msg).
Proof.
  intros H.
  assert (Hz : forall wn sn,
            flood_zones fuel (FloodNetwork (zone_net fn) wn sn)
            = flood_zones fuel fn).
  { intros wn sn. unfold flood_zones.
    assert (Hp : forall k offset acc,
              fetch_pages k (FloodNetwork (zone_net fn) wn sn) offset acc
              = fetch_pages k fn offset acc).
    { induction k as [|k IH]; intros offset acc; cbn [fetch_pages];
        [reflexivity|].
      unfold page_body. cbn [zone_net].
      destruct (res_bind _ _) as [[all'|all' offset']|e]; auto. }
    now rewrite Hp. }
  split; [|split; [|split]].
  - intros wn sn. unfold get_flood_data in *. rewrite Hz.
    destruct (flood_zones fuel fn) as [[[fz2 fz3]|e]|]; [| |discriminate];
      injection H as <-; eexists; split; reflexivity.
  - intros Hv. unfold get_flood_data in H.
    destruct (flood_zones fuel fn) as [[[fz2 fz3]|e]|]; [| |discriminate];
      injection H as <-; [|discriminate Hv].
    eexists. split; [reflexivity|]. split; reflexivity.
  - apply get_flood_warnings_failed.
  - apply get_stations_failed.
Qed.

Lemma get_flood_data_sub_fetch_failures_witness :
  exists d,
    get_flood_data 1 warnings_down (515 # 10) (-1 # 10) 2 = Some (JDict d) /\
    dict_get "flood_warnings" d = Some (error_dict "Request timed out").
Proof.
  destruct (get_flood_data_sub_fetch_failures 1 warnings_down
              (515 # 10) (-1 # 10) 2
              (match get_flood_data 1 warnings_down (515 # 10) (-1 # 10) 2
               with Some v => v | None => JNull end) eq_refl)
    as (_ & Hb & Hw & _).
  destruct (Hb eq_refl) as (d & Hd & Hwarn & _).
  exists d. split; [now rewrite <- Hd|].
  rewrite Hwarn, (Hw "Request timed out"); [reflexivity | now exists []].
Defined.

(** C3, counterexample: with the warnings endpoint timing out on every
    attempt, the call still returns a bundle, in which the failed
    sub-fetch sits under [flood_warnings]. *)
Lemma failure_is_top_level_fails :
  ~ failure_is_top_level warnings_down (515 # 10) (-1 # 10) 2.
Proof.
  intros H.
  assert (Hf : exists msg,
             failed_with (zone_net warnings_down 0) msg \/
             failed_with (warnings_net warnings_down) msg \/
             failed_with (stations_net warnings_down) msg).
  { exists "Request timed out". right; left. now exists []. }
  specialize (H Hf 1%nat _ eq_refl). discriminate H.
Qed.

End FloodServiceFacts.

(** ** services/property_service.py *)

Module PropertyServiceFacts.
Import PropertyService.

Lemma date_eqb_eq (a b : date_field) : date_eqb a b = true <-> a = b.
Proof.
  destruct a as [y m d|s], b as [y' m' d'|s']; cbn [date_eqb].
  - rewrite !andb_true_iff, !Z.eqb_eq. split.
    + intros [[-> ->] ->]. reflexivity.
    + intros [= -> -> ->]. auto.
  - split; discriminate.
  - split; discriminate.
  - rewrite String.eqb_eq. split; [intros ->; reflexivity | now intros [= ->]].
Qed.

Lemma conflicts_true (d : date_field) (ty : string) (price : Q)
  (item : price_entry) :
  conflicts d ty price item = true <->
  date item = d /\ property_type item = ty /\
  average_price item <> py_round price.
Proof.
  unfold conflicts.
  rewrite !andb_true_iff, date_eqb_eq, String.eqb_eq, negb_true_iff,
    Z.eqb_neq. tauto.
Qed.

Lemma app_one_neq {A} (l : list A) (x : A) : l ++ [x] <> l.
Proof.
  intros H. apply (f_equal (@length A)) in H.
  rewrite length_app in H. cbn in H. lia.
Qed.

(** C4: a channel with a positive price appends its candidate entry
    exactly if no entry gathered so far has the same date and the same
    property type with another rounded price, and leaves the series
    unchanged otherwise; so a second (2024-01, Detached, 300000) is
    appended again, and a (2024-01, Detached, 300001) after a 300000 is
    not appended. *)
Theorem price_dedup_rule :
  (forall (price_data : list price_entry) (formatted_date : date_field)
          (type : string) (price : Q) (pct_change : option Q),
     (0 < price)%Q ->
     let candidate :=
       PriceEntry formatted_date (py_round price) type
         (option_map py_round2 pct_change) in
     let conflict :=
       exists item, In item price_data /\
         date item = formatted_date /\ property_type item = type /\
         average_price item <> py_round price in
     (add_channel price_data formatted_date type price pct_change
      = price_data ++ [candidate] <-> ~ conflict) /\
     (add_channel price_data formatted_date type price pct_change
      = price_data <-> conflict)) /\
  build_price_data [detached_row 2024 1 300000; detached_row 2024 1 300000]
  = [PriceEntry (DateYMD 2024 1 1) 300000 "Detached" None;
     PriceEntry (DateYMD 2024 1 1) 300000 "Detached" None] /\
  build_price_data [detached_row 2024 1 300000; detached_row 2024 1 300001]
  = [PriceEntry (DateYMD 2024 1 1) 300000 "Detached" None].
Proof.
  split; [|split; vm_compute; reflexivity].
  intros price_data formatted_date type price pct_change Hpos candidate
    conflict.
  unfold add_channel.
  assert (Hlt : Qlt_bool 0 price = true).
  { unfold Qlt_bool. apply negb_true_iff.
    destruct (Qle_bool price 0) eqn:E; [|reflexivity].
    apply Qle_bool_iff in E. lra. }
  rewrite Hlt. fold candidate.
  destruct (List.find (conflicts formatted_date type price) price_data)
    as [existing_entry|] eqn:Hfind.
  - assert (Hc : conflict).
    { apply find_some in Hfind as [Hin Hc]. apply conflicts_true in Hc.
      now exists existing_entry. }
    split; split; try tauto.
    intros H. symmetry in H. now apply app_one_neq in H.
  - assert (Hc : ~ conflict).
    { intros (item & Hin & Hitem). apply conflicts_true in Hitem.
      pose proof (find_none _ _ Hfind item Hin). congruence. }
    split; split; try tauto.
    intros H. now apply app_one_neq in H.
Qed.

Lemma price_dedup_rule_witness :
  add_channel [PriceEntry (DateYMD 2024 1 1) 300000 "Detached" None]
    (DateYMD 2024 1 1) "Detached" 300001 None
  = [PriceEntry (DateYMD 2024 1 1) 300000 "Detached" None].
Proof.
  destruct price_dedup_rule as [Hrule _].
  apply (Hrule [PriceEntry (DateYMD 2024 1 1) 300000 "Detached" None]
           (DateYMD 2024 1 1) "Detached" 300001%Q None).
  - reflexivity.
  - eexists. split; [now left|]. cbn. repeat split. discriminate.
Defined.

Lemma parse_all_dated (l : list price_entry) :
  (forall e, In e l -> is_ymd (date e) = true) ->
  parse_all (map date l) = Ok (map dated l).
Proof.
  induction l as [|e l IH]; intros H; cbn [map parse_all]; [reflexivity|].
  rewrite IH by (intros e' He'; apply H; now right).
  assert (He : is_ymd (date e) = true) by (apply H; now left).
  unfold dated, ordinal_of. destruct (date e); [reflexivity | discriminate].
Qed.

Lemma latest_from_spec (best : date_field * Z) (l : list (date_field * Z)) :
  In (latest_from best l) (best :: l) /\
  forall x, In x (best :: l) -> snd x <= snd (latest_from best l).
Proof.
  revert best. induction l as [|y l IH]; intros best; cbn [latest_from].
  - split; [now left | intros x [<-|[]]; lia].
  - destruct (IH (if snd best <? snd y then y else best)) as [Hin Hmax].
    split.
    + destruct Hin as [Hin|Hin]; [|now right; right].
      rewrite <- Hin. destruct (snd best <? snd y); [right; now left | now left].
    + intros x Hx.
      assert (Hb : snd best <= snd (latest_from
                     (if snd best <? snd y then y else best) l) /\
                   snd y <= snd (latest_from
                     (if snd best <? snd y then y else best) l)).
      { pose proof (Hmax _ (or_introl eq_refl)) as H0.
        destruct (Z.ltb_spec (snd best) (snd y)); lia. }
      destruct Hx as [<-|[<-|Hx]]; [lia | lia |].
      apply Hmax. now right.
Qed.

Lemma nearest_from_spec (target : Z) (best : date_field * Z)
  (l : list (date_field * Z)) :
  In (nearest_from target best l) (best :: l) /\
  forall x, In x (best :: l) ->
    Z.abs (snd (nearest_from target best l) - target)
    <= Z.abs (snd x - target).
Proof.
  revert best. induction l as [|y l IH]; intros best; cbn [nearest_from].
  - split; [now left | intros x [<-|[]]; lia].
  - set (best' := if Z.abs (snd y - target) <? Z.abs (snd best - target)
                  then y else best).
    destruct (IH best') as [Hin Hmin]. split.
    + destruct Hin as [Hin|Hin]; [|now right; right].
      rewrite <- Hin. subst best'.
      destruct (_ <? _); [right; now left | now left].
    + intros x Hx.
      pose proof (Hmin _ (or_introl eq_refl)) as H0.
      assert (Hb : Z.abs (snd best' - target) <= Z.abs (snd best - target) /\
                   Z.abs (snd best' - target) <= Z.abs (snd y - target)).
      { subst best'.
        destruct (Z.ltb_spec (Z.abs (snd y - target))
                    (Z.abs (snd best - target))); lia. }
      destruct Hx as [<-|[<-|Hx]]; [lia | lia |].
      apply Hmin. now right.
Qed.

(** The entry [average_on] reads for the date of an Average entry. *)
Lemma average_on_entry (price_data : list price_entry) (e : price_entry) :
  In e price_data -> is_average e = true ->
  exists item, In item price_data /\ is_average item = true /\
               date item = date e /\
               average_on price_data (date e) = average_price item.
Proof.
  intros Hin Havg. unfold average_on.
  destruct (List.find (fun item => date_eqb (date item) (date e)
                                   && is_average item) price_data)
    as [item|] eqn:Hfind.
  - apply find_some in Hfind as [Hi Hc].
    apply andb_true_iff in Hc as [Hd Ha]. apply date_eqb_eq in Hd.
    exists item. auto.
  - pose proof (find_none _ _ Hfind e Hin) as Hn. cbn in Hn.
    rewrite Havg, (proj2 (date_eqb_eq _ _) eq_refl) in Hn. discriminate.
Qed.

Lemma ordinal_of_date (a b : price_entry) :
  date a = date b -> ordinal_of a = ordinal_of b.
Proof. unfold ordinal_of. now intros ->. Qed.

(** C5: the yearly change compares the latest Average entry with the
    Average entry whose date is nearest, by absolute difference in days,
    to 365 days before the latest date, and is
    [(latest - closest) / closest * 100], or absent when the closest
    entry's price is zero; with Average entries at 2023-01 (200000) and
    2024-01 (220000) only, it is 10. *)
Theorem yearly_change_nearest_year_ago :
  (forall price_data : list price_entry,
     (forall e, In e price_data -> is_average e = true ->
                is_ymd (date e) = true) ->
     (exists e, In e price_data /\ is_average e = true /\
                365 < ordinal_of e) ->
     exists latest closest,
       In latest price_data /\ is_average latest = true /\
       In closest price_data /\ is_average closest = true /\
       (forall e, In e price_data -> is_average e = true ->
                  ordinal_of e <= ordinal_of latest) /\
       (forall e, In e price_data -> is_average e = true ->
                  Z.abs (ordinal_of closest - (ordinal_of latest - 365))
                  <= Z.abs (ordinal_of e - (ordinal_of latest - 365))) /\
       yearly_change price_data
       = Ok (average_price latest,
             if 0 <? average_price closest
             then Some ((inject_Z (average_price latest
                                   - average_price closest)
                         / inject_Z (average_price closest)) * 100)%Q
             else None)) /\
  (exists pct,
     yearly_change
       (build_price_data [average_row 2023 1 200000; average_row 2024 1 220000])
     = Ok (220000, Some pct) /\ (pct == 10)%Q) /\
  (exists s pct,
     get_uk_house_price_index
       [average_row 2023 1 200000; average_row 2024 1 220000]
     = Summary s /\
     current_average_price s = Some 220000 /\
     yearly_change_percentage s = Some pct /\ (pct == 10)%Q).
Proof.
  split; [|split;
           [eexists; split; [vm_compute; reflexivity | reflexivity]
           |do 2 eexists; split; [vm_compute; reflexivity|];
            repeat split; reflexivity]].
  intros price_data Hymd (e0 & He0 & Ha0 & Ho0).
  set (avg := List.filter is_average price_data).
  assert (Havg : forall e, In e avg <-> In e price_data /\ is_average e = true)
    by (intros e; apply filter_In).
  unfold yearly_change. fold avg.
  rewrite parse_all_dated by (intros e He%Havg; now apply Hymd).
  cbn [res_bind].
  destruct (map dated avg) as [|first others] eqn:Hdates.
  { apply map_eq_nil in Hdates.
    assert (In e0 avg) by now apply Havg. rewrite Hdates in *. contradiction. }
  assert (Hall : forall x, In x (first :: others) <->
                           exists e, dated e = x /\ In e avg)
    by (intros x; rewrite <- Hdates; apply in_map_iff).
  destruct (latest_from_spec first others) as [Hlin Hlmax].
  apply Hall in Hlin as (er & Her & Hin_r). apply Havg in Hin_r as [Hr1 Hr2].
  assert (Hmax : forall e, In e price_data -> is_average e = true ->
                           ordinal_of e <= ordinal_of er).
  { intros e He Ha.
    assert (Hx : In (dated e) (first :: others))
      by (apply Hall; exists e; split; [reflexivity | now apply Havg]).
    apply Hlmax in Hx. rewrite <- Her in Hx. exact Hx. }
  rewrite <- Her. cbn [fst snd dated].
  assert (Hov : (ordinal_of er - 365 <? 1) = false).
  { apply Z.ltb_ge. specialize (Hmax e0 He0 Ha0). lia. }
  rewrite Hov.
  destruct (nearest_from_spec (ordinal_of er - 365) first others)
    as [Hnin Hnmin].
  apply Hall in Hnin as (ec & Hec & Hin_c). apply Havg in Hin_c as [Hc1 Hc2].
  rewrite <- Hec. cbn [fst snd dated].
  destruct (average_on_entry price_data er Hr1 Hr2)
    as (latest & Hl1 & Hl2 & Hl3 & ->).
  destruct (average_on_entry price_data ec Hc1 Hc2)
    as (closest & Hk1 & Hk2 & Hk3 & ->).
  exists latest, closest.
  rewrite (ordinal_of_date _ _ Hl3), (ordinal_of_date _ _ Hk3).
  repeat (split; [assumption|]). split.
  - intros e He Ha.
    assert (Hx : In (dated e) (first :: others))
      by (apply Hall; exists e; split; [reflexivity | now apply Havg]).
    apply Hnmin in Hx. rewrite <- Hec in Hx. exact Hx.
  - destruct (0 <? average_price closest); reflexivity.
Qed.

Lemma yearly_change_nearest_year_ago_witness :
  exists latest closest,
    average_price latest = 220000 /\ average_price closest = 200000 /\
    yearly_change
      (build_price_data [average_row 2023 1 200000; average_row 2024 1 220000])
    = Ok (average_price latest,
          Some ((inject_Z (average_price latest - average_price closest)
                 / inject_Z (average_price closest)) * 100)%Q).
Proof.
  destruct yearly_change_nearest_year_ago as [Hspec _].
  destruct (Hspec (build_price_data
                     [average_row 2023 1 200000; average_row 2024 1 220000]))
    as (latest & closest & Hl & _ & Hc & _ & Hmax & Hmin & Hyc).
  - intros e [<-|[<-|[]]] _; reflexivity.
  - eexists. split; [now left|]. split; [reflexivity|]. vm_compute.
    reflexivity.
  - exists latest, closest.
    assert (El : average_price latest = 220000).
    { destruct Hl as [<-|[<-|[]]]; [|reflexivity]. exfalso.
      specialize (Hmax _ (or_intror (or_introl eq_refl)) eq_refl).
      vm_compute in Hmax. now apply Hmax. }
    assert (Ec : average_price closest = 200000).
    { destruct Hc as [<-|[<-|[]]]; [reflexivity|]. exfalso.
      destruct Hl as [<-|[<-|[]]]; [discriminate El|].
      specialize (Hmin _ (or_introl eq_refl) eq_refl).
      vm_compute in Hmin. now apply Hmin. }
    split; [exact El|]. split; [exact Ec|].
    rewrite Hyc, Ec. reflexivity.
Defined.

End PropertyServiceFacts.

(** ** utils/data_fetcher.py: further properties *)

Module DataFetcherProps.
Import DataFetcher.

Lemma attempt_loop_effects (net : network) (n d : Z) (k i : nat) :
  gets (snd (attempt_loop net n d k i))
  = seq i (length (gets (snd (attempt_loop net n d k i)))) /\
  (length (gets (snd (attempt_loop net n d k i))) <= k)%nat /\
  (fst (attempt_loop net n d k i) = ReturnedMaxRetries ->
   length (gets (snd (attempt_loop net n d k i))) = k /\
   length (sleeps (snd (attempt_loop net n d k i))) = k) /\
  (fst (attempt_loop net n d k i) <> ReturnedMaxRetries ->
   length (gets (snd (attempt_loop net n d k i)))
   = S (length (sleeps (snd (attempt_loop net n d k i))))).
Proof.
  revert i. induction k as [|k IH]; intros i; cbn [attempt_loop].
  - cbn. repeat split; try reflexivity; try lia. congruence.
  - destruct (attempt_step n d i (net i)) as [secs|o] eqn:Hstep.
    + specialize (IH (S i)).
      destruct (attempt_loop net n d k (S i)) as [o tr].
      cbn [fst snd gets sleeps flat_map app length] in *.
      fold (gets tr) in *. fold (sleeps tr) in *.
      destruct IH as (Hg & Hle & Hmax & Hstop).
      split; [cbn [seq]; now rewrite <- Hg|].
      split; [lia|]. split.
      * intros Ho. destruct (Hmax Ho). lia.
      * intros Ho. specialize (Hstop Ho). lia.
    + cbn. split; [reflexivity|]. split; [lia|]. split.
      * intros ->. now apply DataFetcherFacts.attempt_step_Stop_not_max in Hstep.
      * reflexivity.
Qed.

(** X1: a call of [make_request] makes at most [max_retries] requests,
    numbered consecutively from 0; it never sleeps more often than it
    requests: once after every request when it gives up with the
    retry-exhaustion error (so also after the last one), and once between
    consecutive requests on every other exit. *)
Theorem make_request_effects_bounded (net : network)
  (max_retries retry_delay : Z) :
  let run := make_request_run net max_retries retry_delay in
  let requests := length (gets (snd run)) in
  let naps := length (sleeps (snd run)) in
  gets (snd run) = seq 0 requests /\
  (requests <= Z.to_nat max_retries)%nat /\
  (fst run = ReturnedMaxRetries ->
   requests = Z.to_nat max_retries /\ naps = requests) /\
  (fst run <> ReturnedMaxRetries -> requests = S naps).
Proof.
  intros run requests naps.
  destruct (attempt_loop_effects net max_retries retry_delay
              (Z.to_nat max_retries) 0) as (Hg & Hle & Hmax & Hstop).
  split; [exact Hg|]. split; [exact Hle|]. split; [|exact Hstop].
  intros Ho. destruct (Hmax Ho) as [Hr Hn].
  split; [exact Hr|]. subst requests naps run. unfold make_request_run.
  now rewrite Hr, Hn.
Qed.

Lemma make_request_effects_bounded_witness :
  length (gets (snd (make_request_run timeout_then_429 2 1))) = 2%nat /\
  length (sleeps (snd (make_request_run timeout_then_429 2 1))) = 2%nat.
Proof.
  destruct (make_request_effects_bounded timeout_then_429 2 1)
    as (_ & _ & Hmax & _).
  destruct Hmax as [Hr Hn]; [reflexivity|].
  split; [exact Hr | now rewrite Hn, Hr].
Defined.





Lemma attempt_loop_body_source (net : network) (n d : Z) (k i : nat)
  (v : json) :
  fst (attempt_loop net n d k i) = ReturnedBody v ->
  exists j r, (i <= j < i + k)%nat /\ net j = Responded r /\
              status_code r = 200 /\ body r = Ok v.
Proof.
  revert i. induction k as [|k IH]; intros i; cbn [attempt_loop];
    [discriminate|].
  destruct (attempt_step n d i (net i)) as [secs|o] eqn:Hstep.
  - specialize (IH (S i)).
    destruct (attempt_loop net n d k (S i)) as [o tr]. cbn [fst] in *.
    intros Ho. destruct (IH Ho) as (j & r & Hj & Hr). exists j, r.
    split; [lia | exact Hr].
  - cbn [fst]. intros ->. revert Hstep.
    unfold attempt_step, sleep_then_continue.
    destruct (net i) as [r| |msg] eqn:Hnet.
    + destruct (Z.eqb_spec (status_code r) 200) as [E|N].
      * destruct (body r) as [j|e] eqn:Hb; intros [= <-].
        exists i, r. split; [lia | auto].
      * destruct (status_code r =? 429).
        -- destruct (retry_wait _ _); [destruct (sleep_ok _)|]; discriminate.
        -- discriminate.
    + destruct (_ <? _); [destruct (sleep_ok _)|]; discriminate.
    + discriminate.
Qed.

(** X3: what [make_request] returns is either the decoded body of an
    attempt answered with status 200 or a dict with an ["error"] key; the
    same holds of [get_json_data], which also turns an exception escaping
    [make_request] into such a dict. *)
Theorem fetched_value_is_body_or_error (net : network) :
  (forall max_retries retry_delay v,
     make_request net max_retries retry_delay = Ok v ->
     (exists i r, (i < Z.to_nat max_retries)%nat /\ net i = Responded r /\
                  status_code r = 200 /\ body r = Ok v) \/
     is_error_dict v = true) /\
  ((exists i r, (i < 3)%nat /\ net i = Responded r /\
                status_code r = 200 /\ body r = Ok (get_json_data net)) \/
   is_error_dict (get_json_data net) = true).
Proof.
  assert (H : forall max_retries retry_delay v,
            make_request net max_retries retry_delay = Ok v ->
            (exists i r, (i < Z.to_nat max_retries)%nat /\
                         net i = Responded r /\
                         status_code r = 200 /\ body r = Ok v) \/
            is_error_dict v = true).
  { intros n d v. unfold make_request, make_request_run.
    destruct (fst (attempt_loop net n d (Z.to_nat n) 0)) as [j| | | | |e]
      eqn:Ho; cbn [outcome_value]; intros [= <-]; try (now right).
    left. apply attempt_loop_body_source in Ho as (i & r & Hi & Hr).
    exists i, r. split; [lia | exact Hr]. }
  split; [exact H|]. unfold get_json_data.
  destruct (make_request net 3 1) as [v|e] eqn:Hm; [|now right].
  destruct (H 3 1 v Hm) as [(i & r & Hi & Hr)|He]; [left | now right].
  exists i, r. split; [cbn in Hi; lia | exact Hr].
Qed.

Lemma fetched_value_is_body_or_error_witness :
  is_error_dict (get_json_data timeout_then_429) = true.
Proof.
  destruct (fetched_value_is_body_or_error timeout_then_429) as [Hm _].
  destruct (Hm 3 1 (get_json_data timeout_then_429) eq_refl)
    as [(i & r & Hi & Hnet & Hs & _)|He]; [exfalso | exact He].
  destruct i as [|i]; [discriminate Hnet|].
  injection Hnet as <-. discriminate Hs.
Defined.

End DataFetcherProps.

(** ** utils/postcode_validator.py *)

Module PostcodeValidatorProps.
Import DataFetcher PostcodeValidator LocationService.

Lemma upper_char_idem (c : ascii) : upper_char (upper_char c) = upper_char c.
Proof. destruct c as [[] [] [] [] [] [] [] []]; reflexivity. Qed.

Lemma upper_char_space (c : ascii) :
  Ascii.eqb (upper_char c) " " = Ascii.eqb c " ".
Proof. destruct c as [[] [] [] [] [] [] [] []]; reflexivity. Qed.

Lemma upper_char_newline (c : ascii) :
  upper_char c = newline -> c = newline.
Proof.
  destruct c as [[] [] [] [] [] [] [] []]; vm_compute; intros H;
    first [reflexivity | discriminate H].
Qed.

Lemma upper_or_digit_not_space (c : ascii) :
  is_upper_or_digit c = true -> Ascii.eqb c " " = false.
Proof.
  destruct c as [[] [] [] [] [] [] [] []]; vm_compute; intros H;
    first [reflexivity | discriminate H].
Qed.

Lemma remove_spaces_app (s t : string) :
  remove_spaces (s +:+ t) = remove_spaces s +:+ remove_spaces t.
Proof.
  induction s as [|c s IH]; [reflexivity|].
  rewrite string_app_cons. cbn [remove_spaces].
  destruct (Ascii.eqb c " "); [exact IH|].
  now rewrite string_app_cons, IH.
Qed.

(** Normalising is idempotent. *)
Lemma remove_spaces_upper (s : string) :
  remove_spaces (upper (remove_spaces s)) = upper (remove_spaces s).
Proof.
  induction s as [|c s IH]; [reflexivity|]. cbn [remove_spaces].
  destruct (Ascii.eqb c " ") eqn:E; [exact IH|].
  cbn [upper remove_spaces]. now rewrite upper_char_space, E, IH.
Qed.

Lemma upper_idem (s : string) : upper (upper s) = upper s.
Proof.
  induction s as [|c s IH]; [reflexivity|].
  cbn [upper]. now rewrite upper_char_idem, IH.
Qed.

Lemma upper_app (s t : string) : upper (s +:+ t) = upper s +:+ upper t.
Proof.
  induction s as [|c s IH]; [reflexivity|].
  rewrite string_app_cons. cbn [upper]. now rewrite string_app_cons, IH.
Qed.

Lemma substring_whole (s : string) (m : nat) :
  (String.length s <= m)%nat -> String.substring 0 m s = s.
Proof.
  revert m. induction s as [|c s IH]; intros [|m] Hlen;
    cbn [String.substring]; try reflexivity; cbn in Hlen; [lia|].
  f_equal. apply IH. lia.
Qed.

(** Python's [s[:k] + s[k:]] is [s]. *)
Lemma substring_split (s : string) (k m : nat) :
  (String.length s <= k + m)%nat ->
  String.substring 0 k s +:+ String.substring k m s = s.
Proof.
  revert k. induction s as [|c s IH]; intros k Hlen.
  - destruct k, m; reflexivity.
  - destruct k as [|k].
    + rewrite (substring_whole (String c s) m) by exact Hlen.
      reflexivity.
    + cbn [String.substring]. rewrite string_app_cons. f_equal.
      apply IH. cbn in Hlen. lia.
Qed.

Lemma but_last3_last3 (s : string) : but_last3 s +:+ last3 s = s.
Proof. apply substring_split. lia. Qed.

Lemma normalised_chars (p : string) (c : ascii) :
  In c (list_ascii_of_string (upper (remove_spaces p))) ->
  exists c', In c' (list_ascii_of_string p) /\ c = upper_char c'.
Proof.
  induction p as [|a p IH]; cbn [remove_spaces upper list_ascii_of_string];
    [intros []|].
  destruct (Ascii.eqb a " ").
  - intros H. destruct (IH H) as (c' & Hc' & E). exists c'.
    split; [now right | exact E].
  - cbn [upper list_ascii_of_string]. intros [<-|H].
    + exists a. split; [now left | reflexivity].
    + destruct (IH H) as (c' & Hc' & E). exists c'.
      split; [now right | exact E].
Qed.

(** A text the pattern accepts that holds no newline is an outward part
    followed by an inward part. *)
Lemma accepted_parts (n : string) :
  matches_pattern n = true ->
  ~ In newline (list_ascii_of_string n) ->
  outward_ok (but_last3 n) = true /\ inward_ok (last3 n) = true.
Proof.
  intros H Hnl.
  assert (Hend : forall c, In c (list_ascii_of_string n) ->
                           Ascii.eqb c newline = false).
  { intros c Hc. destruct (Ascii.eqb_spec c newline); [|reflexivity].
    subst c. contradiction. }
  clear Hnl.
  destruct n as [|c1 [|c2 [|c3 [|c4 [|c5 [|c6 [|c7 [|c8 [|c9 n]]]]]]]]];
    cbn in H; unfold is_upper_or_digit in H;
    repeat rewrite ?andb_true_iff, ?orb_true_iff, ?andb_false_r,
      ?orb_false_r in H;
    try (exfalso; intuition discriminate).
  all: cbn [list_ascii_of_string] in Hend.
  all: unfold but_last3, last3, outward_ok, inward_ok, is_upper_or_digit;
    cbn [String.length Nat.sub String.substring list_ascii_of_string
           forallb Nat.leb].
  all: repeat match goal with
       | H : _ /\ _ |- _ => destruct H
       | H : _ \/ _ |- _ => destruct H
       | H : false = true |- _ => discriminate H
       | H : true = true |- _ => clear H
       | H : Ascii.eqb ?c _ = true |- _ =>
           let Hc := fresh in
           pose proof (Hend c ltac:(cbn; tauto)) as Hc;
           unfold newline in Hc; congruence
       end.
  all: repeat match goal with
       | H : ?b = true |- context [?b] => rewrite H
       end.
  all: cbn; rewrite ?orb_true_r; auto.
Qed.

Lemma prefix_app (s t : string) : String.prefix s (s +:+ t) = true.
Proof.
  induction s as [|c s IH]; [now destruct t|].
  rewrite string_app_cons. cbn [String.prefix].
  destruct (ascii_dec c c); [exact IH | contradiction].
Qed.

Lemma is_substring_skip (needle s t : string) :
  is_substring needle t = true -> is_substring needle (s +:+ t) = true.
Proof.
  intros H. induction s as [|c s IH]; [exact H|].
  rewrite string_app_cons. cbn [is_substring].
  rewrite IH. apply orb_true_r.
Qed.

Lemma is_substring_mid (needle s t : string) :
  is_substring needle (s +:+ needle +:+ t) = true.
Proof.
  apply is_substring_skip.
  assert (H : forall hay, String.prefix needle hay = true ->
                          is_substring needle hay = true)
    by (intros [|c hay] Hp; cbn [is_substring]; now rewrite Hp).
  apply H, prefix_app.
Qed.

Lemma first_token_app (s t : string) :
  no_space s -> first_token (s +:+ " " +:+ t) = s.
Proof.
  unfold no_space.
  induction s as [|c s IH]; intros H; [reflexivity|].
  rewrite string_app_cons. cbn [first_token].
  rewrite (H c) by now left. f_equal. apply IH.
  intros c' Hc'. apply H. now right.
Qed.

Lemma outward_no_space (s : string) : outward_ok s = true -> no_space s.
Proof.
  unfold outward_ok, no_space. destruct s as [|a rest]; [discriminate|].
  rewrite !andb_true_iff. intros [[[Ha Hrest] _] _] c.
  cbn [list_ascii_of_string]. intros [<-|Hc].
  - apply upper_or_digit_not_space. unfold is_upper_or_digit.
    now rewrite Ha.
  - apply upper_or_digit_not_space.
    now apply (proj1 (forallb_forall _ _) Hrest).
Qed.

(** X4: a postcode the validator accepts is returned as its outward part
    (a letter followed by one to three letters or digits), a space, and
    its inward part (a digit and two letters), with an empty message;
    splitting that text at its space gives the outward part back. *)
Theorem validate_postcode_format (postcode : string) (api : get_result)
  (formatted message : string) :
  ascii_only postcode ->
  ~ In newline (list_ascii_of_string postcode) ->
  validate_postcode postcode api = (true, formatted, message) ->
  let normalised := upper (remove_spaces postcode) in
  formatted = but_last3 normalised +:+ " " +:+ last3 normalised /\
  but_last3 normalised +:+ last3 normalised = normalised /\
  outward_ok (but_last3 normalised) = true /\
  inward_ok (last3 normalised) = true /\
  message = "" /\
  is_substring " " formatted = true /\
  first_token formatted = but_last3 normalised.
Proof.
  intros _ Hnl H normalised. unfold validate_postcode in H.
  destruct postcode as [|c p]; [discriminate|].
  fold normalised in H.
  destruct (matches_pattern normalised) eqn:Hm; cbn [negb] in H;
    [|discriminate].
  destruct (service_confirms api); [|discriminate].
  injection H as <- <-.
  destruct (accepted_parts normalised Hm) as [Hout Hin].
  { intros Hc. apply normalised_chars in Hc as (c' & Hc' & E).
    symmetry in E. apply upper_char_newline in E. subst c'. contradiction. }
  split; [reflexivity|]. split; [apply but_last3_last3|].
  split; [exact Hout|]. split; [exact Hin|]. split; [reflexivity|].
  split; [apply is_substring_mid|].
  apply first_token_app, outward_no_space, Hout.
Qed.

Lemma validate_postcode_format_witness :
  validate_postcode "sw1a 1aa" TimedOut = (true, "SW1A 1AA", "") /\
  first_token "SW1A 1AA" = "SW1A".
Proof.
  destruct (validate_postcode_format "sw1a 1aa" TimedOut "SW1A 1AA" "")
    as (_ & _ & _ & _ & _ & _ & Htok).
  - unfold ascii_only. cbn. repeat constructor.
  - cbn. intros H.
    repeat (destruct H as [H|H]; [discriminate H|]). exact H.
  - reflexivity.
  - split; [reflexivity | exact Htok].
Defined.

(** X5: validating again the text the validator returned gives the same
    verdict, the same text and the same message, whenever that text is
    not empty. *)
Theorem validate_postcode_idempotent (postcode : string) (api : get_result)
  (is_valid : bool) (formatted message : string) :
  ascii_only postcode ->
  validate_postcode postcode api = (is_valid, formatted, message) ->
  formatted <> "" ->
  validate_postcode formatted api = (is_valid, formatted, message).
Proof.
  intros _ H Hne. unfold validate_postcode in H.
  destruct postcode as [|c p]; [injection H as _ <- _; contradiction|].
  set (n := upper (remove_spaces (String c p))) in *.
  assert (Hn : upper (remove_spaces n) = n).
  { subst n. now rewrite remove_spaces_upper, upper_idem. }
  destruct (matches_pattern n) eqn:Hm; cbn [negb] in H.
  - assert (Hf : upper (remove_spaces
                          (but_last3 n +:+ " " +:+ last3 n)) = n).
    { rewrite !remove_spaces_app. cbn [remove_spaces Ascii.eqb]. 
      rewrite string_app_nil, <- remove_spaces_app, but_last3_last3.
      exact Hn. }
    assert (Hfmt : formatted = but_last3 n +:+ " " +:+ last3 n)
      by (destruct (service_confirms api); now injection H).
    rewrite <- Hfmt in Hf.
    unfold validate_postcode. destruct formatted as [|c' f'];
      [contradiction|].
    rewrite Hf, Hm. cbn [negb]. exact H.
  - injection H as <- <- <-.
    assert (Hv : forall s, s <> "" -> upper (remove_spaces s) = s ->
                   matches_pattern s = false ->
                   validate_postcode s api
                   = (false, s, "Invalid postcode format")).
    { intros [|c' s'] Hs Hu Hp; [contradiction|].
      unfold validate_postcode. now rewrite Hu, Hp. }
    now apply Hv.
Qed.

Lemma validate_postcode_idempotent_witness :
  validate_postcode "M1 1AE" TimedOut = (true, "M1 1AE", "").
Proof.
  apply (validate_postcode_idempotent "m11ae" TimedOut true "M1 1AE" "").
  - unfold ascii_only. cbn. repeat constructor.
  - reflexivity.
  - discriminate.
Defined.

(** X6: an unreachable or failing validation service never invalidates a
    postcode: a non-empty postcode is declared invalid exactly when the
    pattern rejects its normalised text, or the service answered with
    HTTP status 200 and a JSON object whose ["status"] is 200 and whose
    ["result"] is falsy. *)
Theorem validate_postcode_verdict (postcode : string) (api : get_result) :
  ascii_only postcode -> postcode <> "" ->
  (fst (fst (validate_postcode postcode api)) = false <->
   matches_pattern (upper (remove_spaces postcode)) = false \/
   exists r data status result,
     api = Responded r /\ status_code r = 200 /\
     body r = Ok (JDict data) /\
     dict_get "status" data = Some status /\
     py_eq_int status 200 = true /\
     dict_get "result" data = Some result /\
     truthy result = false).
Proof.
  intros _ Hne. unfold validate_postcode.
  destruct postcode as [|c p]; [contradiction|].
  set (n := upper (remove_spaces (String c p))).
  destruct (matches_pattern n); cbn [negb]; [|split; auto].
  assert (Hs : service_confirms api = false <->
               exists r data status result,
                 api = Responded r /\ status_code r = 200 /\
                 body r = Ok (JDict data) /\
                 dict_get "status" data = Some status /\
                 py_eq_int status 200 = true /\
                 dict_get "result" data = Some result /\
                 truthy result = false).
  { unfold service_confirms. split.
    - destruct api as [r| |msg]; try discriminate.
      destruct (Z.eqb_spec (status_code r) 200) as [E|]; [|discriminate].
      destruct (body r) as [data|] eqn:Hb; [|discriminate].
      destruct data as [| | | | |data]; cbn [py_getitem]; try discriminate.
      destruct (dict_get "status" data) as [status|] eqn:Hst;
        [|discriminate].
      destruct (py_eq_int status 200) eqn:Heq; [|discriminate].
      destruct (dict_get "result" data) as [result|] eqn:Hres;
        [|discriminate].
      intros Ht. exists r, data, status, result. auto 10.
    - intros (r & data & status & result & -> & E & Hb & Hst & Heq & Hres
              & Ht).
      rewrite E, Hb. cbn [Z.eqb Pos.eqb py_getitem].
      now rewrite Hst, Heq, Hres. }
  destruct (service_confirms api); cbn [fst].
  - split; [discriminate|]. intros [H|H]; [discriminate|].
    now apply Hs in H.
  - split; [|reflexivity]. intros _. right. now apply Hs.
Qed.

Lemma validate_postcode_verdict_witness :
  fst (fst (validate_postcode "EC1A 1BB"
              (ok_body (JDict [("status", JNum 200);
                               ("result", JBool false)])))) = false.
Proof.
  apply validate_postcode_verdict.
  - unfold ascii_only. cbn. repeat constructor.
  - discriminate.
  - right. do 4 eexists. repeat split; reflexivity.
Defined.

End PostcodeValidatorProps.

(** ** services/location_service.py: further properties *)

Module LocationServiceProps.
Import DataFetcher LocationService PostcodeValidator.

Lemma space_substring (s : string) :
  is_substring " " s
  = existsb (fun c => Ascii.eqb c " ") (list_ascii_of_string s).
Proof.
  induction s as [|c s IH]; [reflexivity|].
  cbn [is_substring list_ascii_of_string existsb String.prefix].
  rewrite IH. f_equal.
  destruct (ascii_dec " " c) as [<-|N].
  - now destruct s.
  - symmetry. apply Ascii.eqb_neq. congruence.
Qed.

Lemma first_token_no_space (s : string) :
  is_substring " " (first_token s) = false.
Proof.
  rewrite space_substring.
  induction s as [|c s IH]; [reflexivity|]. cbn [first_token].
  destruct (Ascii.eqb c " ") eqn:E; [reflexivity|].
  cbn [list_ascii_of_string existsb]. now rewrite E, IH.
Qed.

Lemma first_token_prefix (s : string) :
  String.prefix (first_token s) s = true.
Proof.
  induction s as [|c s IH]; [reflexivity|]. cbn [first_token].
  destruct (Ascii.eqb c " "); [reflexivity|]. cbn [String.prefix].
  destruct (ascii_dec c c); [exact IH | contradiction].
Qed.

Lemma prefix_refl (s : string) : String.prefix s s = true.
Proof.
  induction s as [|c s IH]; [reflexivity|]. cbn [String.prefix].
  destruct (ascii_dec c c); [exact IH | contradiction].
Qed.

Lemma dict_has_key (k : string) (d : list (string * json)) :
  In k (map fst d) -> dict_has k d = true.
Proof.
  unfold dict_has. induction d as [|[k' v] d IH]; intros Hk; [destruct Hk|].
  cbn [dict_get]. destruct (String.eqb_spec k k'); [reflexivity|].
  destruct Hk as [E|Hk]; [cbn in E; congruence|]. now apply IH.
Qed.

(** The record branch of [get_location_data]. *)
Lemma get_location_data_record (net : network) (postcode : string)
  (d : list (string * json)) :
  get_location_data net postcode = Ok (JDict d) ->
  dict_has "error" d = false ->
  map fst d = location_keys /\
  dict_get "outcode" d
  = Some (JStr (if is_substring " " postcode then first_token postcode
                else postcode)).
Proof.
  unfold get_location_data. intros H Hne.
  apply res_bind_Ok in H as (has_error & Herr & H).
  destruct has_error.
  { injection H as H. rewrite H in Herr. cbn in Herr. congruence. }
  apply res_bind_Ok in H as (has_result & Hres & H).
  destruct has_result; cbn [negb] in H;
    [|injection H as <-; discriminate Hne].
  repeat (apply res_bind_Ok in H as (? & _ & H)).
  injection H as <-. split; reflexivity.
Qed.

(** X7: a location record always carries all thirteen keys, whatever the
    provider's result holds (so ['latitude'] and ['longitude'] are keys
    of every record, also when their value is [None]); its outcode is a
    prefix of the postcode asked for and holds no space. *)
Theorem location_record_shape (net : network) (postcode : string)
  (d : list (string * json)) :
  get_location_data net postcode = Ok (JDict d) ->
  dict_has "error" d = false ->
  map fst d = location_keys /\
  dict_has "latitude" d = true /\ dict_has "longitude" d = true /\
  exists outcode,
    dict_get "outcode" d = Some (JStr outcode) /\
    String.prefix outcode postcode = true /\
    is_substring " " outcode = false.
Proof.
  intros H Hne.
  destruct (get_location_data_record net postcode d H Hne) as [Hkeys Hout].
  split; [exact Hkeys|].
  assert (Hhas : forall k, In k location_keys -> dict_has k d = true)
    by (intros k Hk; apply dict_has_key; now rewrite Hkeys).
  split; [apply Hhas; cbn; tauto|]. split; [apply Hhas; cbn; tauto|].
  eexists. split; [exact Hout|].
  destruct (is_substring " " postcode) eqn:Hsp.
  - split; [apply first_token_prefix | apply first_token_no_space].
  - split; [apply prefix_refl | exact Hsp].
Qed.

Lemma location_record_shape_witness :
  exists d outcode,
    get_location_data latitude_only "SW1A 1AA" = Ok (JDict d) /\
    dict_has "longitude" d = true /\
    dict_get "outcode" d = Some (JStr outcode) /\
    is_substring " " outcode = false.
Proof.
  pose (d := match get_location_data latitude_only "SW1A 1AA" with
             | Ok (JDict d) => d
             | _ => []
             end).
  destruct (location_record_shape latitude_only "SW1A 1AA" d)
    as (_ & _ & Hlon & outcode & Hout & _ & Hsp).
  - reflexivity.
  - reflexivity.
  - exists d, outcode. repeat split; assumption || reflexivity.
Defined.

(** X8: when no attempt of the fetch is answered with status 200 and a
    body that decodes, [get_location_data] and [get_nearby_postcodes]
    neither raise nor build a result: both return the error dict the
    fetcher produced. *)
Theorem location_fetch_failure_surfaces (net : network) (postcode : string) :
  never_answered net ->
  is_error_dict (get_json_data net) = true /\
  get_location_data net postcode = Ok (get_json_data net) /\
  get_nearby_postcodes net = Ok (get_json_data net).
Proof.
  intros Hna.
  assert (He : is_error_dict (get_json_data net) = true).
  { unfold get_json_data, make_request, make_request_run.
    destruct (fst (attempt_loop net 3 1 (Z.to_nat 3) 0))
      as [j| | | | |e] eqn:Ho; cbn [outcome_value]; try reflexivity.
    apply DataFetcherProps.attempt_loop_body_source in Ho
      as (i & r & Hi & Hnet & Hs & Hb).
    exfalso. apply (Hna i r j); [cbn in Hi; lia | assumption..]. }
  split; [exact He|].
  unfold get_location_data, get_nearby_postcodes.
  destruct (get_json_data net) as [| | | | |d]; try discriminate He.
  cbn [is_error_dict] in He. cbn [py_in res_bind]. rewrite He.
  split; reflexivity.
Qed.

Lemma location_fetch_failure_surfaces_witness :
  get_location_data (fun _ => TimedOut) "SW1A 1AA"
  = Ok (error_dict "Request timed out").
Proof.
  destruct (location_fetch_failure_surfaces (fun _ => TimedOut) "SW1A 1AA")
    as (_ & H & _).
  - intros i r v _ Hnet. discriminate Hnet.
  - exact H.
Defined.

(** X9: for a postcode the validator accepted, the outcode of the
    location record built from the validator's text is the outward part
    of the postcode: its normalised text without the last three
    characters. *)
Theorem validated_postcode_outcode (postcode : string) (api : get_result)
  (formatted message : string) (net : network) (d : list (string * json)) :
  ascii_only postcode ->
  ~ In newline (list_ascii_of_string postcode) ->
  validate_postcode postcode api = (true, formatted, message) ->
  get_location_data net formatted = Ok (JDict d) ->
  dict_has "error" d = false ->
  dict_get "outcode" d
  = Some (JStr (but_last3 (upper (remove_spaces postcode)))) /\
  outward_ok (but_last3 (upper (remove_spaces postcode))) = true.
Proof.
  intros _ Hnl Hv Hloc Hne.
  set (n := upper (remove_spaces postcode)) in *.
  assert (Hacc : matches_pattern n = true /\
                 formatted = but_last3 n +:+ " " +:+ last3 n).
  { unfold validate_postcode in Hv. destruct postcode as [|c p];
      [discriminate|]. fold n in Hv.
    destruct (matches_pattern n); cbn [negb] in Hv; [|discriminate].
    destruct (service_confirms api); [|discriminate].
    injection Hv as <- _. auto. }
  destruct Hacc as [Hm ->].
  destruct (PostcodeValidatorProps.accepted_parts n Hm) as [Hout _].
  { intros Hc.
    apply PostcodeValidatorProps.normalised_chars in Hc as (c' & Hc' & E).
    symmetry in E. apply PostcodeValidatorProps.upper_char_newline in E.
    subst c'. contradiction. }
  split; [|exact Hout].
  destruct (get_location_data_record net _ d Hloc Hne) as [_ Hoc].
  rewrite Hoc, PostcodeValidatorProps.is_substring_mid.
  rewrite PostcodeValidatorProps.first_token_app; [reflexivity|].
  now apply PostcodeValidatorProps.outward_no_space.
Qed.

Lemma validated_postcode_outcode_witness :
  exists d,
    get_location_data latitude_only "SW1A 1AA" = Ok (JDict d) /\
    dict_get "outcode" d = Some (JStr "SW1A").
Proof.
  pose (d := match get_location_data latitude_only "SW1A 1AA" with
             | Ok (JDict d) => d
             | _ => []
             end).
  destruct (validated_postcode_outcode "sw1a1aa" TimedOut "SW1A 1AA" ""
              latitude_only d) as [Hoc _].
  - unfold ascii_only. cbn. repeat constructor.
  - cbn. intros H.
    repeat (destruct H as [H|H]; [discriminate H|]). exact H.
  - reflexivity.
  - reflexivity.
  - reflexivity.
  - exists d. split; [reflexivity | exact Hoc].
Defined.

End LocationServiceProps.

(** ** services/crime_service.py: further properties *)

Module CrimeServiceProps.
Import DataFetcher CrimeService.

(** X10: the radius [get_crime_data_for_date] sends is the radius in
    miles capped at one mile, and it is always sent: the guard
    [radius_miles <= 1.0] around the parameter never fails. *)
Theorem crime_radius_capped (latitude longitude radius_km : Q)
  (date_str : string) :
  exists radius_miles,
    req_radius (build_request latitude longitude radius_km date_str)
    = Some radius_miles /\
    (radius_miles <= 1)%Q /\
    ((radius_km * miles_per_km <= 1)%Q ->
     (radius_miles == radius_km * miles_per_km)%Q) /\
    ((1 < radius_km * miles_per_km)%Q -> (radius_miles == 1)%Q) /\
    req_date (build_request latitude longitude radius_km date_str)
    = date_str.
Proof.
  unfold build_request, miles_per_km. cbn [req_radius req_date].
  set (x := (radius_km * (621371 # 1000000))%Q).
  assert (Hle : (py_min x 1 <= 1)%Q).
  { unfold py_min. destruct (Qlt_bool 1 x) eqn:E; qprop; lra. }
  assert (Hb : Qle_bool (py_min x 1) 1 = true) by now apply Qle_bool_iff.
  rewrite Hb. exists (py_min x 1). split; [reflexivity|].
  split; [exact Hle|]. unfold py_min.
  destruct (Qlt_bool 1 x) eqn:E; qprop;
    (split; [|split; [|reflexivity]]); intros H;
    try reflexivity; lra.
Qed.

Lemma wrap_month_spec (fuel : nat) (m y : Z) :
  (Z.to_nat (1 - m) <= fuel)%nat -> m <= 12 ->
  1 <= fst (wrap_month fuel m y) <= 12 /\
  12 * snd (wrap_month fuel m y) + fst (wrap_month fuel m y) = 12 * y + m.
Proof.
  revert m y. induction fuel as [|fuel IH]; intros m y Hf Hm;
    cbn [wrap_month].
  - cbn [fst snd]. lia.
  - destruct (Z.leb_spec m 0).
    + destruct (IH (m + 12) (y - 1)) as [Hr He]; [lia | lia |].
      split; [exact Hr | lia].
    + cbn [fst snd]. lia.
Qed.

(** X11: the wrap-around loop brings any month offset back into a
    calendar month: however many months [i] before the current one (also
    more than a year), the month is between 1 and 12 and month and year
    are those of the [i]-th month back. *)
Theorem month_of_any_offset (today : date_now) (i : nat) :
  1 <= today_month today <= 12 ->
  month_of today i = months_back (today_year today) (today_month today) i /\
  1 <= fst (month_of today i) <= 12 /\
  12 * snd (month_of today i) + fst (month_of today i)
  = 12 * today_year today + today_month today - Z.of_nat i.
Proof.
  intros Hm. unfold month_of.
  set (m := today_month today - Z.of_nat i).
  destruct (wrap_month_spec (Z.to_nat (1 - m)) m (today_year today))
    as [Hr He]; [lia | lia |].
  split; [|split; [exact Hr | lia]].
  destruct (wrap_month (Z.to_nat (1 - m)) m (today_year today)) as [m' y'].
  cbn [fst snd] in *. unfold months_back.
  replace (12 * today_year today + (today_month today - 1) - Z.of_nat i)
    with ((m' - 1) + y' * 12) by lia.
  rewrite Z_mod_plus_full, Z_div_plus_full by lia.
  rewrite Z.mod_small, Z.div_small by lia. f_equal; lia.
Qed.

Lemma month_of_any_offset_witness :
  month_of (DateNow 2024 3) 30 = (9, 2021).
Proof.
  destruct (month_of_any_offset (DateNow 2024 3) 30) as [H _].
  - cbn. lia.
  - rewrite H. reflexivity.
Defined.

Section Raising.
Variables (prov : provider) (latitude longitude radius : Q) (today : date_now).

Let resp := month_response prov latitude longitude radius today.
Let req (i : nat) :=
  build_request latitude longitude radius (date_str_of today i).

Lemma crime_loop_raises (pre post : list nat) (i : nat)
  (all_crimes : list json) :
  (forall j, In j pre -> valid_response (resp j) = true ->
             not_iterable (resp j) = false) ->
  valid_response (resp i) = true -> not_iterable (resp i) = true ->
  (exists e, fst (crime_loop prov latitude longitude radius today
                    (pre ++ i :: post) all_crimes) = Raise e) /\
  requests_of (snd (crime_loop prov latitude longitude radius today
                      (pre ++ i :: post) all_crimes))
  = map req (pre ++ [i]).
Proof.
  intros Hpre Hv Hn. revert all_crimes.
  induction pre as [|j pre IH]; intros all_crimes.
  - cbn [app crime_loop map]. fold (req i).
    change (get_crime_data_for_date (prov i (req i))) with (resp i).
    rewrite Hv. unfold not_iterable in Hn.
    destruct (iter_items (resp i)) as [items|e]; [discriminate|].
    split; [now exists e | reflexivity].
  - cbn [app crime_loop map]. fold (req j).
    change (get_crime_data_for_date (prov j (req j))) with (resp j).
    assert (Hpre' : forall k, In k pre -> valid_response (resp k) = true ->
                              not_iterable (resp k) = false)
      by (intros k Hk; apply Hpre; now right).
    destruct (valid_response (resp j)) eqn:Hvj.
    + pose proof (Hpre j (or_introl eq_refl) Hvj) as Hit.
      unfold not_iterable in Hit.
      destruct (iter_items (resp j)) as [items|e]; [|discriminate].
      destruct (IH Hpre' (all_crimes ++ items)) as [[e He] Hr].
      destruct (crime_loop prov latitude longitude radius today
                  (pre ++ i :: post) (all_crimes ++ items)) as [r tr].
      cbn [fst snd] in *. split; [now exists e|].
      cbn [requests_of flat_map app]. fold (requests_of tr). now rewrite Hr.
    + destruct (IH Hpre' all_crimes) as [[e He] Hr].
      destruct (crime_loop prov latitude longitude radius today
                  (pre ++ i :: post) all_crimes) as [r tr].
      cbn [fst snd] in *. split; [now exists e|].
      cbn [requests_of flat_map app]. fold (requests_of tr). now rewrite Hr.
Qed.

End Raising.

(** X12: when a month is answered with status 200 and a JSON value that
    is neither an error dict nor iterable (null, a number, a boolean),
    [get_crime_data] raises at that month: the [TypeError] of
    [all_crimes.extend] escapes after the requests up to that month, and
    no later month is requested; [get_last_year_monthly_data] stores the
    same value under the month's key instead. *)
Theorem crime_data_raises_on_scalar (prov : provider)
  (latitude longitude radius : Q) (today : date_now) (i : nat) :
  let resp := month_response prov latitude longitude radius today in
  1 <= today_month today <= 12 ->
  (i < 12)%nat ->
  (forall j, (j < i)%nat -> valid_response (resp j) = true ->
             not_iterable (resp j) = false) ->
  valid_response (resp i) = true -> not_iterable (resp i) = true ->
  (exists e,
     fst (get_crime_data prov latitude longitude radius None today)
     = Raise e) /\
  requests_of (snd (get_crime_data prov latitude longitude radius None today))
  = map (fun j => build_request latitude longitude radius
                    (date_str_of today j)) (seq 0 (S i)) /\
  fst (get_last_year_monthly_data prov latitude longitude radius today)
    !! date_str_of today i = Some (resp i).
Proof.
  intros resp Hm Hi Hpre Hv Hn.
  assert (Hseq : seq 0 12 = seq 0 i ++ i :: seq (S i) (12 - S i)).
  { replace 12%nat with (i + S (12 - S i))%nat at 1 by lia.
    rewrite seq_app. reflexivity. }
  split; [|split].
  - unfold get_crime_data. rewrite Hseq.
    destruct (crime_loop_raises prov latitude longitude radius today
                (seq 0 i) (seq (S i) (12 - S i)) i [])
      as [[e He] _]; [|assumption..|].
    { intros j Hj%in_seq. apply Hpre. lia. }
    destruct (crime_loop prov latitude longitude radius today
                (seq 0 i ++ i :: seq (S i) (12 - S i)) []) as [r tr].
    cbn [fst] in *. subst r. now exists e.
  - unfold get_crime_data. rewrite Hseq.
    destruct (crime_loop_raises prov latitude longitude radius today
                (seq 0 i) (seq (S i) (12 - S i)) i [])
      as [_ Hr]; [|assumption..|].
    { intros j Hj%in_seq. apply Hpre. lia. }
    destruct (crime_loop prov latitude longitude radius today
                (seq 0 i ++ i :: seq (S i) (12 - S i)) []) as [r tr].
    cbn [snd] in *. rewrite Hr. f_equal.
    replace (S i) with (i + 1)%nat by lia. now rewrite seq_app.
  - unfold get_last_year_monthly_data.
    apply (CrimeServiceFacts.monthly_loop_lookup prov latitude longitude
             radius today (seq 0 12) (NoDup_seq 0 12)).
    + intros a b Ha%in_seq Hb%in_seq.
      apply CrimeServiceFacts.date_str_of_inj; [assumption | lia..].
    + left. exists i. split; [apply in_seq; lia | auto].
Qed.

Lemma crime_radius_capped_witness :
  exists radius_miles,
    req_radius (build_request 51 0 5 "2024-03") = Some radius_miles /\
    (radius_miles == 1)%Q.
Proof.
  destruct (crime_radius_capped 51 0 5 "2024-03")
    as (r & Hr & _ & _ & Hcap & _).
  exists r. split; [exact Hr|]. apply Hcap. reflexivity.
Defined.

Lemma crime_data_raises_on_scalar_witness :
  length (requests_of
            (snd (get_crime_data null_in_third_month 51 0 1 None
                    (DateNow 2024 3)))) = 3%nat.
Proof.
  destruct (crime_data_raises_on_scalar null_in_third_month 51 0 1
              (DateNow 2024 3) 2) as (_ & Hreq & _).
  - cbn. lia.
  - lia.
  - intros j Hj _. destruct j as [|[|j]]; [reflexivity | reflexivity | lia].
  - reflexivity.
  - reflexivity.
  - rewrite Hreq. reflexivity.
Defined.

End CrimeServiceProps.

(** ** services/flood_service.py: further properties of the risk tier *)

Module FloodRiskProps.
Import FloodRisk.

(** X13: [check_point_in_flood_zones] never reports both zones: once a
    Zone 3 feature contains the point the Zone 2 features are not looked
    at, so [in_zone_2] is [False] whatever they hold (also rings on which
    the test would raise), and the tier is "high". *)
Theorem zone_2_skipped_after_zone_3 (longitude latitude : Q)
  (fz3 : list feature) :
  (forall fz2 in_zone_2 in_zone_3,
     check_point_in_flood_zones longitude latitude (FloodData fz2 fz3)
     = Ok (in_zone_2, in_zone_3) ->
     in_zone_2 && in_zone_3 = false) /\
  (inside_some_ring (longitude, latitude) fz3 ->
   rings_nonempty fz3 ->
   forall fz2,
     check_point_in_flood_zones longitude latitude (FloodData fz2 fz3)
     = Ok (false, true) /\
     exists d,
       get_flood_risk_description (FloodData fz2 fz3) longitude latitude
       = Ok d /\ risk_level d = "high").
Proof.
  split.
  - intros fz2 z2 z3. unfold check_point_in_flood_zones.
    cbn [flood_zone_3 flood_zone_2]. intros H.
    apply res_bind_Ok in H as (z3' & _ & H). destruct z3'; cbn [negb] in H.
    + now injection H as <- <-.
    + apply res_bind_Ok in H as (z2' & _ & H). injection H as <- <-.
      apply andb_false_r.
  - intros Hin Hne fz2.
    assert (Hscan : scan_features (longitude, latitude) fz3 false = Ok true).
    { destruct (FloodRiskFacts.scan_features_total
                  (longitude, latitude) fz3 false Hne) as [b Hb].
      rewrite Hb. f_equal.
      apply (FloodRiskFacts.scan_features_spec _ _ _ _ Hb). now right. }
    unfold get_flood_risk_description, check_point_in_flood_zones.
    cbn [flood_zone_3 flood_zone_2]. rewrite Hscan. cbn [res_bind negb].
    split; [reflexivity|]. eexists. split; reflexivity.
Qed.

Lemma zone_2_skipped_after_zone_3_witness :
  check_point_in_flood_zones 5 5
    (FloodData malformed_zone_2 [Feature (Polygon [square])])
  = Ok (false, true).
Proof.
  destruct (zone_2_skipped_after_zone_3 5 5 [Feature (Polygon [square])])
    as [_ H].
  apply H.
  - exists (Feature (Polygon [square])), square.
    split; [now left|]. split; [now left|]. vm_compute. reflexivity.
  - intros f r [<-|[]] [<-|[]]. discriminate.
Defined.

(** One step of the loop leaves the flag alone when the point is outside
    the box of the two vertices of the edge. *)
Lemma pip_body_outside (x y : Q) (st : pip_state) (p2 : point) :
  ((fst (p1 st) < x)%Q /\ (fst p2 < x)%Q) \/
  ((snd (p1 st) < y)%Q /\ (snd p2 < y)%Q) \/
  ((y <= snd (p1 st))%Q /\ (y <= snd p2)%Q) ->
  exists xi, pip_body x y st p2 = Ok (PipState (inside st) p2 xi).
Proof.
  destruct st as [ins [p1x p1y] xi], p2 as [p2x p2y].
  unfold pip_body; cbn [p1 inside xinters fst snd]. intros H.
  destruct (Qlt_bool (py_min p1y p2y) y) eqn:Hmin; [|eauto].
  destruct (Qle_bool y (py_max p1y p2y)) eqn:Hmax; [|eauto].
  destruct (Qle_bool x (py_max p1x p2x)) eqn:Hx; [|eauto].
  exfalso. revert Hmin Hmax Hx. unfold py_min, py_max.
  destruct (Qlt_bool p2y p1y) eqn:H1, (Qlt_bool p1y p2y) eqn:H2,
    (Qlt_bool p1x p2x) eqn:H3; intros Hmin Hmax Hx; qprop;
    destruct H as [[? ?]|[[? ?]|[? ?]]]; lra.
Qed.

Lemma pip_loop_outside (x y : Q) (polygon : ring) (idxs : list nat) :
  polygon <> [] -> outside_box (x, y) polygon ->
  forall st, In (p1 st) polygon ->
    exists st', pip_loop x y polygon (length polygon) idxs st = Ok st' /\
                inside st' = inside st.
Proof.
  intros Hne Hbox. induction idxs as [|i idxs IH]; intros st Hp1;
    cbn [pip_loop]; [eauto|].
  destruct (lookup_lt_is_Some_2 polygon (i mod length polygon)%nat)
    as [p2 Hp2].
  { apply Nat.mod_upper_bound. destruct polygon; cbn; [congruence | lia]. }
  rewrite Hp2.
  assert (Hin2 : In p2 polygon)
    by (apply list_elem_of_In, list_elem_of_lookup; eauto).
  destruct (pip_body_outside x y st p2) as [xi Hb].
  { unfold outside_box in Hbox. cbn [fst snd] in Hbox.
    destruct Hbox as [H|[H|H]]; [left | right; left | right; right];
      split; now apply H. }
  rewrite Hb. cbn [res_bind].
  destruct (IH (PipState (inside st) p2 xi)) as (st' & Hst' & Hi);
    [exact Hin2|].
  exists st'. split; [exact Hst' | exact Hi].
Qed.

(** X14: a point to the right of every vertex of a ring, above every
    vertex, or not above any vertex is classified outside; so a ring
    whose vertices share one ordinate (a single vertex, a horizontal
    segment) contains no point. *)
Theorem point_outside_box (pt : point) (polygon : ring) :
  polygon <> [] -> outside_box pt polygon ->
  point_in_polygon pt polygon = Ok false.
Proof.
  intros Hne Hbox. destruct pt as [x y]. unfold point_in_polygon.
  destruct polygon as [|first rest] eqn:E; [congruence|].
  change ((first :: rest) !! 0%nat) with (Some first).
  destruct (pip_loop_outside x y (first :: rest)
              (seq 0 (length (first :: rest) + 1)) Hne Hbox
              (PipState false first None)) as (st' & Hst' & Hi).
  { now left. }
  rewrite Hst'. cbn [res_bind]. now rewrite Hi.
Qed.

Lemma point_outside_box_witness :
  point_in_polygon (15, 5)%Q square = Ok false.
Proof.
  apply point_outside_box; [discriminate|].
  left. intros p Hp. cbn [fst].
  repeat (destruct Hp as [<-|Hp]; [reflexivity|]). destruct Hp.
Defined.

(** *** The loop as a walk along the ring *)

Lemma pip_loop_walk (x y : Q) (polygon : ring) (idxs : list nat)
  (vertices : list point) :
  Forall2 (fun i v => polygon !! (i mod length polygon)%nat = Some v)
    idxs vertices ->
  forall st,
    pip_loop x y polygon (length polygon) idxs st
    = pip_walk x y st vertices.
Proof.
  induction 1 as [|i v idxs vertices Hi _ IH]; intros st;
    cbn [pip_loop pip_walk]; [reflexivity|].
  rewrite Hi. destruct (pip_body x y st v) as [st'|e]; cbn [res_bind];
    [apply IH | reflexivity].
Qed.

(** The vertices the loop reads: the ring, then its first vertex again. *)
Lemma ring_reads (first : point) (rest : list point) :
  let polygon := first :: rest in
  Forall2 (fun i v => polygon !! (i mod length polygon)%nat = Some v)
    (seq 0 (length polygon + 1)) (polygon ++ [first]).
Proof.
  intros polygon. rewrite seq_app. apply Forall2_app.
  - apply Forall2_same_length_lookup_2; [now rewrite length_seq|].
    intros i j v Hj Hv. apply lookup_seq in Hj as [-> Hlt].
    cbn [Nat.add]. now rewrite Nat.mod_small.
  - constructor; [|constructor]. cbn [Nat.add].
    now rewrite Nat.Div0.mod_same.
Qed.

Lemma point_in_polygon_walk (x y : Q) (first : point) (rest : list point) :
  point_in_polygon (x, y) (first :: rest)
  = (st <- pip_walk x y (PipState false first None)
             ((first :: rest) ++ [first]) ;;;
     Ok (inside st)).
Proof.
  rewrite <- (pip_loop_walk x y (first :: rest) _ _ (ring_reads first rest)).
  reflexivity.
Qed.

Lemma pip_walk_app (x y : Q) (st : pip_state) (a b : list point) :
  pip_walk x y st (a ++ b)
  = (st' <- pip_walk x y st a ;;; pip_walk x y st' b).
Proof.
  revert st. induction a as [|v a IH]; intros st; cbn [app pip_walk];
    [reflexivity|].
  destruct (pip_body x y st v) as [st'|e]; cbn [res_bind];
    [apply IH | reflexivity].
Qed.

Lemma pip_body_p1 (x y : Q) (st st' : pip_state) (p2 : point) :
  pip_body x y st p2 = Ok st' -> p1 st' = p2.
Proof.
  destruct st as [ins [p1x p1y] xi], p2 as [p2x p2y].
  unfold pip_body; cbn [p1 inside xinters].
  repeat match goal with
         | |- context [if ?b then _ else _] => destruct b
         | |- context [match ?o with Some _ => _ | None => _ end] =>
             destruct o
         end; intros [= <-] || discriminate; reflexivity.
Qed.

Lemma pip_walk_last (x y : Q) (st st' : pip_state) (a : list point)
  (v : point) :
  pip_walk x y st (a ++ [v]) = Ok st' -> p1 st' = v.
Proof.
  rewrite pip_walk_app. intros H.
  apply res_bind_Ok in H as (st1 & _ & H). cbn [pip_walk] in H.
  apply res_bind_Ok in H as (st2 & Hb & [= <-]).
  now apply pip_body_p1 in Hb.
Qed.

(** X15: a ring written closed, with its first vertex repeated at the
    end as GeoJSON writes rings, is classified exactly like the same ring
    written open: the repeated vertex adds an edge of no length, which
    never toggles the flag. *)
Theorem closed_ring_same_as_open (pt : point) (first : point)
  (rest : list point) :
  point_in_polygon pt ((first :: rest) ++ [first])
  = point_in_polygon pt (first :: rest).
Proof.
  destruct pt as [x y].
  change ((first :: rest) ++ [first]) with (first :: (rest ++ [first])).
  rewrite !point_in_polygon_walk.
  change (first :: rest ++ [first]) with ((first :: rest) ++ [first]).
  rewrite (pip_walk_app x y _ ((first :: rest) ++ [first]) [first]).
  destruct (pip_walk x y (PipState false first None)
              ((first :: rest) ++ [first])) as [st|e] eqn:Hw;
    cbn [res_bind]; [|reflexivity].
  apply pip_walk_last in Hw. cbn [pip_walk].
  destruct (pip_body_outside x y st first) as [xi Hb].
  { rewrite Hw. destruct (Qlt_le_dec (snd first) y);
      [right; left | right; right]; split; assumption. }
  rewrite Hb. reflexivity.
Qed.

End FloodRiskProps.

(** ** services/flood_service.py: paging, zone split and sub-fetches *)

Module FloodServiceProps.
Import DataFetcher FloodService.

(** *** The page loop *)

Lemma page_body_failure (fn : flood_network) (offset : Z)
  (all_features : list json) :
  transport_failure (zone_net fn offset) ->
  page_body fn offset all_features = Ok (PagesDone all_features).
Proof.
  unfold transport_failure, page_body, fetch, make_request.
  destruct (fst (make_request_run (zone_net fn offset) 3 1));
    cbn [outcome_value]; intros H; try contradiction; reflexivity.
Qed.

Lemma page_body_serves (fn : flood_network) (offset : Z)
  (all_features items : list json) :
  serves fn offset items ->
  page_body fn offset all_features
  = Ok (if Z.of_nat (length items) <? limit
        then PagesDone (all_features ++ items)
        else NextPage (all_features ++ items)
               (offset + Z.of_nat (length items))).
Proof.
  intros (d & Hf & Hd). unfold page_body. rewrite Hf.
  cbn [res_bind py_in py_getitem]. unfold dict_has. rewrite Hd.
  cbn [negb res_bind].
  destruct items as [|item items].
  - cbn. now rewrite app_nil_r.
  - cbn [truthy negb iter_items py_len res_bind].
    now destruct (Z.of_nat (length (item :: items)) <? limit).
Qed.

(** X16: a zone page that fails in transport ends the paging loop
    silently, with the features gathered so far; when it is the first
    page, [get_flood_data] returns a bundle with two empty zone lists and
    no error entry, whatever the fetcher's error was. *)
Theorem zone_page_failure_swallowed (fn : flood_network) (offset : Z) :
  transport_failure (zone_net fn offset) ->
  (forall fuel all_features,
      fetch_pages (S fuel) fn offset all_features = Some (Ok all_features)) /\
  (offset = 0 ->
   forall fuel latitude longitude radius_km,
   exists d,
     get_flood_data (S fuel) fn latitude longitude radius_km = Some (JDict d)
     /\ dict_get "flood_zone_2" d = Some (JList [])
     /\ dict_get "flood_zone_3" d = Some (JList [])
     /\ dict_has "error" d = false).
Proof.
  intros Hfail.
  assert (Hpages : forall fuel all_features,
             fetch_pages (S fuel) fn offset all_features
             = Some (Ok all_features)).
  { intros fuel all_features. cbn [fetch_pages].
    now rewrite (page_body_failure fn offset all_features Hfail). }
  split; [exact Hpages|].
  intros -> fuel latitude longitude radius_km.
  unfold get_flood_data, flood_zones. rewrite Hpages.
  cbn [res_bind split_zones fst snd]. rewrite filter_nil.
  eexists. split; [reflexivity|]. repeat split.
Qed.

Lemma zone_page_failure_swallowed_witness :
  exists d,
    get_flood_data 1 zones_down (515 # 10) (-1 # 10) 2 = Some (JDict d)
    /\ dict_get "flood_zone_2" d = Some (JList [])
    /\ dict_get "flood_zone_3" d = Some (JList [])
    /\ dict_has "error" d = false.
Proof.
  assert (Hfail : transport_failure (zone_net zones_down 0)) by exact I.
  exact (proj2 (zone_page_failure_swallowed zones_down 0 Hfail) eq_refl
           0%nat (515 # 10)%Q (-1 # 10)%Q 2%Q).
Defined.

(** X17: against an endpoint that answers every offset with a full page
    the paging loop never ends: no number of passes is enough. The loop
    has no bound of its own. *)
Theorem paging_unbounded (fn : flood_network) :
  (forall offset, exists items,
      serves fn offset items /\ limit <= Z.of_nat (length items)) ->
  forall fuel offset all_features,
    fetch_pages fuel fn offset all_features = None.
Proof.
  intros Hfull fuel.
  induction fuel as [|fuel IH]; intros offset all_features;
    cbn [fetch_pages]; [reflexivity|].
  destruct (Hfull offset) as (items & Hs & Hlen).
  rewrite (page_body_serves fn offset all_features items Hs).
  apply Z.ltb_ge in Hlen. rewrite Hlen. apply IH.
Qed.

Lemma paging_unbounded_witness :
  fetch_pages 5 always_full 0 [] = None.
Proof.
  apply (paging_unbounded always_full).
  intros offset. exists (repeat JNull (Z.to_nat limit)). split.
  - eexists. split; reflexivity.
  - rewrite repeat_length. unfold limit. lia.
Defined.



(** *** The zone split *)

Lemma zone_codes_disjoint (flood_zone : json) :
  zone_code_in flood_zone "FZ2" "2" = true ->
  zone_code_in flood_zone "FZ3" "3" = false.
Proof.
  destruct flood_zone as [| | |s| |]; cbn [zone_code_in]; try discriminate.
  intros H. apply orb_true_iff in H as [H|H];
    apply String.eqb_eq in H; subst s; reflexivity.
Qed.

Lemma split_zones_spec (features : list json) :
  forall fz2 fz3 z2 z3,
    split_zones features fz2 fz3 = Ok (z2, z3) ->
    z2 = fz2 ++ filter (fun f => in_zone "FZ2" "2" f = true) features /\
    z3 = fz3 ++ filter (fun f => in_zone "FZ3" "3" f = true) features.
Proof.
  induction features as [|feature features IH]; intros fz2 fz3 z2 z3 H.
  - cbn in H. injection H as <- <-. now rewrite !filter_nil, !app_nil_r.
  - cbn [split_zones] in H.
    assert (Hz : forall flood_zone,
               flood_zone_of feature = Ok flood_zone ->
               in_zone "FZ2" "2" feature = zone_code_in flood_zone "FZ2" "2"
               /\ in_zone "FZ3" "3" feature
                  = zone_code_in flood_zone "FZ3" "3").
    { intros flood_zone E. unfold in_zone. now rewrite E. }
    unfold flood_zone_of in Hz.
    destruct (py_get "properties" (JDict []) feature) as [properties|e];
      cbn [res_bind] in H, Hz; [|discriminate].
    destruct (py_get "flood_zone" (JStr "") properties) as [flood_zone|e];
      cbn [res_bind] in H; [|discriminate].
    destruct (Hz flood_zone eq_refl) as [H2 H3].
    destruct (zone_code_in flood_zone "FZ2" "2") eqn:E2.
    + pose proof (zone_codes_disjoint flood_zone E2) as E3.
      rewrite E3 in H3. apply IH in H as [-> ->].
      rewrite filter_cons_True by exact H2.
      rewrite filter_cons_False by (rewrite H3; discriminate).
      now rewrite <- app_assoc.
    + destruct (zone_code_in flood_zone "FZ3" "3") eqn:E3;
        apply IH in H as [-> ->];
        rewrite (filter_cons_False (fun f => in_zone "FZ2" "2" f = true))
          by (rewrite H2; discriminate).
      * rewrite filter_cons_True by exact H3. now rewrite <- app_assoc.
      * now rewrite filter_cons_False by (rewrite H3; discriminate).
Qed.

(** X19: in every bundle [get_flood_data] returns, [flood_zone_2] holds
    exactly the fetched features whose zone code is ["FZ2"] or ["2"] and
    that are dicts with a geometry, in the order fetched, [flood_zone_3]
    those with ["FZ3"] or ["3"]; no feature is in both lists, and
    features with any other code are in neither. *)
Theorem bundle_zones_by_code (fuel : nat) (fn : flood_network)
  (latitude longitude radius_km : Q) (v : json) :
  get_flood_data fuel fn latitude longitude radius_km = Some v ->
  is_error_dict v = false ->
  exists all_features,
    fetch_pages fuel fn 0 [] = Some (Ok all_features) /\
    py_getitem "flood_zone_2" v
    = Ok (JList (filter (fun f => has_geometry f = true)
                   (filter (fun f => in_zone "FZ2" "2" f = true)
                      all_features))) /\
    py_getitem "flood_zone_3" v
    = Ok (JList (filter (fun f => has_geometry f = true)
                   (filter (fun f => in_zone "FZ3" "3" f = true)
                      all_features))) /\
    (forall f, in_zone "FZ2" "2" f = true -> in_zone "FZ3" "3" f = false).
Proof.
  unfold get_flood_data, flood_zones. intros Hv Herr.
  destruct (fetch_pages fuel fn 0 []) as [[all_features|e]|];
    cbn [res_bind] in Hv; [| |discriminate].
  - exists all_features. split; [reflexivity|].
    destruct (split_zones all_features [] []) as [[z2 z3]|e] eqn:Hs;
      cbn [res_bind fst snd] in Hv.
    + apply split_zones_spec in Hs as [-> ->]. cbn [app] in Hv.
      injection Hv as <-. split; [reflexivity|]. split; [reflexivity|].
      intros f. unfold in_zone.
      destruct (flood_zone_of f) as [flood_zone|e];
        [apply zone_codes_disjoint | discriminate].
    + injection Hv as <-. discriminate Herr.
  - injection Hv as <-. discriminate Herr.
Qed.

Lemma bundle_zones_by_code_witness :
  exists all_features,
    fetch_pages 1 one_page 0 [] = Some (Ok all_features) /\
    py_getitem "flood_zone_2"
      (match get_flood_data 1 one_page (515 # 10) (-1 # 10) 2 with
       | Some v => v
       | None => JNull
       end)
    = Ok (JList (filter (fun f => has_geometry f = true)
                   (filter (fun f => in_zone "FZ2" "2" f = true)
                      all_features))) /\
    py_getitem "flood_zone_3"
      (match get_flood_data 1 one_page (515 # 10) (-1 # 10) 2 with
       | Some v => v
       | None => JNull
       end)
    = Ok (JList (filter (fun f => has_geometry f = true)
                   (filter (fun f => in_zone "FZ3" "3" f = true)
                      all_features))) /\
    (forall f, in_zone "FZ2" "2" f = true -> in_zone "FZ3" "3" f = false).
Proof.
  apply (bundle_zones_by_code 1 one_page (515 # 10) (-1 # 10) 2);
    reflexivity.
Defined.

(** *** Warnings and stations *)

Lemma first_reading_raises (pre post : list json)
  (measure : list (string * json)) (reading : json) :
  Forall (fun m => match m with
                   | JDict d => dict_has "latestReading" d = false
                   | _ => True
                   end) pre ->
  dict_get "latestReading" measure = Some reading ->
  (forall d, reading <> JDict d) ->
  exists e, first_reading (pre ++ JDict measure :: post) = Raise e.
Proof.
  intros Hpre Hr Hnd. induction Hpre as [|m pre Hm _ IH]; cbn [app].
  - cbn [first_reading]. unfold dict_has, get_or. rewrite Hr.
    destruct reading; cbn; eauto. now destruct (Hnd d).
  - cbn [first_reading]. destruct m; try exact IH. now rewrite Hm.
Qed.

Lemma collect_stations_raises (items : list json)
  (station : list (string * json)) :
  In (JDict station) items ->
  reading_not_expanded station ->
  forall stations, exists e, collect_stations items stations = Raise e.
Proof.
  intros Hin (pre & measure & post & reading & Hm & Hpre & Hr & Hnd).
  destruct (first_reading_raises pre post measure reading Hpre Hr Hnd)
    as [e He].
  induction items as [|item items IH]; [destruct Hin|].
  intros stations. destruct Hin as [->|Hin].
  - cbn [collect_stations]. unfold get_or at 1. rewrite Hm, He.
    cbn [res_bind]. eauto.
  - cbn [collect_stations]. destruct item; try (apply IH; exact Hin).
    destruct (match get_or "measures" (JList []) d with
              | JList measures => first_reading measures
              | _ => Ok JNull
              end) as [r|e']; cbn [res_bind]; [apply IH; exact Hin | eauto].
Qed.

(** X20: one station whose reading is not a dict costs the whole answer:
    when the stations endpoint answers with items among which such a
    station is, [get_nearby_flood_monitoring_stations] returns count 0,
    no stations and an error message, whatever the other stations are. *)
Theorem one_bad_reading_drops_all_stations (net : network)
  (response : list (string * json)) (items : list json)
  (station : list (string * json)) :
  fetch net = Ok (JDict response) ->
  dict_has "error" response = false ->
  dict_get "items" response = Some (JList items) ->
  In (JDict station) items ->
  reading_not_expanded station ->
  exists e,
    get_nearby_flood_monitoring_stations net
    = JDict [("count", JNum 0); ("stations", JList []);
             ("error",
              JStr ("Failed to retrieve flood monitoring stations: "
                    +:+ e))].
Proof.
  intros Hf Herr Hitems Hin Hbad.
  destruct (collect_stations_raises items station Hin Hbad []) as [e He].
  exists e.
  unfold get_nearby_flood_monitoring_stations, flood_stations_body.
  rewrite Hf. cbn [res_bind py_in py_getitem]. rewrite Herr.
  unfold dict_has. rewrite Hitems. cbn [res_bind iter_items].
  now rewrite He.
Qed.

Lemma one_bad_reading_drops_all_stations_witness :
  exists e,
    get_nearby_flood_monitoring_stations linked_reading
    = JDict [("count", JNum 0); ("stations", JList []);
             ("error",
              JStr ("Failed to retrieve flood monitoring stations: "
                    +:+ e))].
Proof.
  eapply (one_bad_reading_drops_all_stations linked_reading _ _
            [("label", JStr "Weir");
             ("measures",
              JList [JDict [("latestReading", JStr "http://reading/1")]])]).
  - reflexivity.
  - reflexivity.
  - reflexivity.
  - right. left. reflexivity.
  - exists [], [("latestReading", JStr "http://reading/1")], [],
      (JStr "http://reading/1").
    split; [reflexivity|]. split; [constructor|].
    split; [reflexivity|]. intros d; discriminate.
Defined.

Lemma collect_warnings_length (items warnings : list json) :
  (length (collect_warnings items warnings)
   <= length warnings + length items)%nat.
Proof.
  revert warnings. induction items as [|item items IH]; intros warnings;
    cbn [collect_warnings length]; [lia|].
  destruct item; try (etransitivity; [apply IH|]; lia).
  destruct (get_or "floodArea" (JDict []) d);
    (etransitivity; [apply IH|]); rewrite ?length_app; cbn [length]; lia.
Qed.

(** X21: whatever the two endpoints answer, the values [get_flood_data]
    stores under [flood_warnings] and [flood_metrics] are dicts that are
    either the bare [{"error": e}] handed on from the fetcher, or carry a
    list under ["warnings"] (resp. ["stations"]) together with its length
    under ["count"]. *)
Theorem sub_fetch_count_is_length (net : network) :
  (exists d, get_flood_warnings net = JDict d /\
     ((exists e, d = [("error", e)]) \/
      exists warnings,
        dict_get "count" d = Some (count_of warnings) /\
        dict_get "warnings" d = Some (JList warnings))) /\
  (exists d, get_nearby_flood_monitoring_stations net = JDict d /\
     ((exists e, d = [("error", e)]) \/
      exists stations,
        dict_get "count" d = Some (count_of stations) /\
        dict_get "stations" d = Some (JList stations))).
Proof.
  split.
  - unfold get_flood_warnings, flood_warnings_body.
    destruct (fetch net) as [response|e]; cbn [res_bind];
      [|eexists; split; [reflexivity|]; right; exists []; now split].
    destruct (py_in "error" response) as [[|]|e]; cbn [res_bind].
    + destruct (py_getitem "error" response) as [e|e]; cbn [res_bind];
        eexists; (split; [reflexivity|]);
        [left; eauto | right; exists []; now split].
    + destruct (py_in "items" response) as [[|]|e]; cbn [res_bind].
      * destruct (py_getitem "items" response) as [items|e];
          cbn [res_bind];
          [|eexists; split; [reflexivity|]; right; exists []; now split].
        destruct (iter_items items) as [elements|e]; cbn [res_bind];
          eexists; (split; [reflexivity|]); right;
          [eexists; now split | exists []; now split].
      * eexists; split; [reflexivity|]; right; exists []; now split.
      * eexists; split; [reflexivity|]; right; exists []; now split.
    + eexists; split; [reflexivity|]; right; exists []; now split.
  - unfold get_nearby_flood_monitoring_stations, flood_stations_body.
    destruct (fetch net) as [response|e]; cbn [res_bind];
      [|eexists; split; [reflexivity|]; right; exists []; now split].
    destruct (py_in "error" response) as [[|]|e]; cbn [res_bind].
    + destruct (py_getitem "error" response) as [e|e]; cbn [res_bind];
        eexists; (split; [reflexivity|]);
        [left; eauto | right; exists []; now split].
    + destruct (py_in "items" response) as [[|]|e]; cbn [res_bind].
      * destruct (py_getitem "items" response) as [items|e];
          cbn [res_bind];
          [|eexists; split; [reflexivity|]; right; exists []; now split].
        destruct (iter_items items) as [elements|e]; cbn [res_bind];
          [|eexists; split; [reflexivity|]; right; exists []; now split].
        destruct (collect_stations elements []) as [stations|e];
          cbn [res_bind]; eexists; (split; [reflexivity|]); right;
          [eexists; now split | exists []; now split].
      * eexists; split; [reflexivity|]; right; exists []; now split.
      * eexists; split; [reflexivity|]; right; exists []; now split.
    + eexists; split; [reflexivity|]; right; exists []; now split.
Qed.

End FloodServiceProps.

(** ** services/property_service.py: the price series as a whole *)

Module PropertyServiceProps.
Import PropertyService.

(** *** One channel *)

Lemma Qlt_bool_pos (price : Q) : Qlt_bool 0 price = true <-> (0 < price)%Q.
Proof.
  unfold Qlt_bool. rewrite negb_true_iff. split.
  - intros H. apply Qnot_le_lt. intros Hle.
    apply Qle_bool_iff in Hle. congruence.
  - intros H. destruct (Qle_bool price 0) eqn:E; [|reflexivity].
    apply Qle_bool_iff in E. lra.
Qed.

Lemma py_round_nonneg (x : Q) : (0 < x)%Q -> 0 <= py_round x.
Proof.
  intros H. unfold py_round.
  assert (Hf : 0 <= Qfloor x).
  { change 0 with (Qfloor 0). apply Qfloor_resp_le. lra. }
  repeat match goal with
         | |- context [if ?b then _ else _] => destruct b
         end; lia.
Qed.

(** What one channel block does to the series: nothing, or it appends its
    candidate, and then only when the price is positive and no entry
    gathered so far disagrees with it. *)
Lemma add_channel_cases (price_data : list price_entry) (d : date_field)
  (type : string) (price : Q) (pct_change : option Q) :
  add_channel price_data d type price pct_change = price_data \/
  ((0 < price)%Q /\
   add_channel price_data d type price pct_change
   = price_data ++ [PriceEntry d (py_round price) type
                      (option_map py_round2 pct_change)] /\
   forall item, In item price_data -> date item = d ->
                property_type item = type ->
                average_price item = py_round price).
Proof.
  unfold add_channel.
  destruct (Qlt_bool 0 price) eqn:Hpos; [|now left].
  destruct (List.find (conflicts d type price) price_data) eqn:Hfind;
    [now left|].
  right. split; [now apply Qlt_bool_pos|]. split; [reflexivity|].
  intros item Hin Hd Ht.
  pose proof (find_none _ _ Hfind item Hin) as Hc.
  destruct (Z.eq_dec (average_price item) (py_round price)) as [E|E];
    [exact E|].
  assert (conflicts d type price item = true)
    by (apply PropertyServiceFacts.conflicts_true; auto).
  congruence.
Qed.

Lemma add_channel_incl (price_data : list price_entry) (d : date_field)
  (type : string) (price : Q) (pct_change : option Q) (e : price_entry) :
  In e price_data -> In e (add_channel price_data d type price pct_change).
Proof.
  intros H.
  destruct (add_channel_cases price_data d type price pct_change)
    as [->|(_ & -> & _)]; [exact H | apply in_or_app; now left].
Qed.

Lemma add_channel_in (price_data : list price_entry) (d : date_field)
  (type : string) (price : Q) (pct_change : option Q) (e : price_entry) :
  In e (add_channel price_data d type price pct_change) ->
  In e price_data \/
  ((0 < price)%Q /\ date e = d /\ property_type e = type /\
   average_price e = py_round price).
Proof.
  destruct (add_channel_cases price_data d type price pct_change)
    as [->|(Hpos & -> & _)]; [now left|].
  intros H. apply in_app_or in H as [H|[<-|[]]]; [now left | right].
  cbn. auto.
Qed.

(** A channel with a positive price leaves an entry of its date and type
    in the series: its own, or the one that kept it out. *)
Lemma add_channel_present (price_data : list price_entry) (d : date_field)
  (type : string) (price : Q) (pct_change : option Q) :
  (0 < price)%Q ->
  exists e, In e (add_channel price_data d type price pct_change) /\
            date e = d /\ property_type e = type.
Proof.
  intros Hpos. unfold add_channel.
  rewrite (proj2 (Qlt_bool_pos price) Hpos).
  destruct (List.find (conflicts d type price) price_data) as [x|] eqn:Hfind.
  - apply find_some in Hfind as [Hin Hc].
    apply PropertyServiceFacts.conflicts_true in Hc as (Hd & Ht & _).
    now exists x.
  - eexists. split; [apply in_or_app; right; now left|]. now cbn.
Qed.

Lemma add_channel_length (price_data : list price_entry) (d : date_field)
  (type : string) (price : Q) (pct_change : option Q) :
  (length (add_channel price_data d type price pct_change)
   <= S (length price_data))%nat.
Proof.
  destruct (add_channel_cases price_data d type price pct_change)
    as [->|(_ & -> & _)]; [lia|]. rewrite length_app. cbn. lia.
Qed.

Lemma add_channel_one_price (price_data : list price_entry)
  (d : date_field) (type : string) (price : Q) (pct_change : option Q) :
  one_price_per_date_and_type price_data ->
  one_price_per_date_and_type
    (add_channel price_data d type price pct_change).
Proof.
  intros Hinv.
  destruct (add_channel_cases price_data d type price pct_change)
    as [->|(_ & -> & Hnew)]; [exact Hinv|].
  intros a b Ha Hb Hd Ht.
  apply in_app_or in Ha as [Ha|[<-|[]]];
    apply in_app_or in Hb as [Hb|[<-|[]]]; cbn in *.
  - now apply Hinv.
  - now apply Hnew.
  - symmetry. apply Hnew; auto.
  - reflexivity.
Qed.

(** *** One row, all rows *)

Lemma add_row_one_price (price_data : list price_entry) (row : hpi_row) :
  one_price_per_date_and_type price_data ->
  one_price_per_date_and_type (add_row price_data row).
Proof.
  intros H. unfold add_row. now repeat apply add_channel_one_price.
Qed.

Lemma add_row_incl (price_data : list price_entry) (row : hpi_row)
  (e : price_entry) :
  In e price_data -> In e (add_row price_data row).
Proof.
  intros H. unfold add_row. now repeat apply add_channel_incl.
Qed.

Lemma add_row_length (price_data : list price_entry) (row : hpi_row) :
  (length (add_row price_data row) <= 5 + length price_data)%nat.
Proof.
  unfold add_row.
  repeat (etransitivity; [apply add_channel_length|]; apply le_n_S).
  lia.
Qed.

(** An entry a row adds carries the row's date, one of the five types
    and a price that is not negative; an Average entry is added only by a
    row with a positive average price. *)
Lemma add_row_in (price_data : list price_entry) (row : hpi_row)
  (e : price_entry) :
  In e (add_row price_data row) ->
  In e price_data \/
  (date e = formatted_date_of (refMonth row) /\
   In (property_type e) channel_types /\
   0 <= average_price e /\
   (property_type e = "Average" ->
    (0 < price_or_zero (averagePrice row))%Q)).
Proof.
  unfold add_row. intros H.
  repeat (apply add_channel_in in H as [H|(Hpos & Hd & Ht & Hp)];
          [| right; split; [exact Hd|]; split;
             [rewrite Ht; cbn; tauto|]; split;
             [rewrite Hp; now apply py_round_nonneg|];
             rewrite Ht; first [intros _; exact Hpos | discriminate]]).
  now left.
Qed.

Lemma fold_add_row_incl (rows : list hpi_row) :
  forall price_data e,
    In e price_data -> In e (fold_left add_row rows price_data).
Proof.
  induction rows as [|row rows IH]; intros price_data e H;
    cbn [fold_left]; [exact H|].
  apply IH. now apply add_row_incl.
Qed.

Lemma fold_add_row_in (rows : list hpi_row) :
  forall price_data e,
    In e (fold_left add_row rows price_data) ->
    In e price_data \/
    exists row, In row rows /\
      date e = formatted_date_of (refMonth row) /\
      In (property_type e) channel_types /\
      0 <= average_price e /\
      (property_type e = "Average" ->
       (0 < price_or_zero (averagePrice row))%Q).
Proof.
  induction rows as [|row rows IH]; intros price_data e H;
    cbn [fold_left] in H; [now left|].
  apply IH in H as [H|(row' & Hin & H)].
  - apply add_row_in in H as [H|H]; [now left|].
    right. exists row. split; [now left | exact H].
  - right. exists row'. split; [now right | exact H].
Qed.

(** X22: the de-duplication gives the series an invariant: however many
    rows and channels agree or disagree, the series never holds two
    prices for one date and one property type. *)
Theorem price_series_one_price (hpi_data : list hpi_row)
  (a b : price_entry) :
  In a (build_price_data hpi_data) ->
  In b (build_price_data hpi_data) ->
  date a = date b ->
  property_type a = property_type b ->
  average_price a = average_price b.
Proof.
  unfold build_price_data.
  assert (H : forall rows price_data,
             one_price_per_date_and_type price_data ->
             one_price_per_date_and_type (fold_left add_row rows price_data)).
  { induction rows as [|row rows IH]; intros price_data Hinv;
      cbn [fold_left]; [exact Hinv|].
    apply IH. now apply add_row_one_price. }
  apply (H hpi_data []). intros x y [].
Qed.

Lemma price_series_one_price_witness :
  average_price (PriceEntry (DateYMD 2024 1 1) 300000 "Detached" None)
  = average_price
      (PriceEntry (DateYMD 2024 1 1) 300000 "Detached" (Some (510 # 100))).
Proof.
  apply (price_series_one_price
           [HpiRow (MonthParsed 2024 1) None (Some 300000%Q) None None None
              None None None None None;
            HpiRow (MonthParsed 2024 1) None (Some (3000002 # 10)%Q)
              None None None None (Some (51 # 10)%Q) None None None;
            detached_row 2024 1 300001]).
  - left. reflexivity.
  - right. left. reflexivity.
  - reflexivity.
  - reflexivity.
Defined.

(** X23: every entry of the series comes from a row: it carries the date
    that row's month is formatted to, one of the five property types and
    a price that is not negative; and the series has at most five entries
    per row. *)
Theorem price_series_entries (hpi_data : list hpi_row) :
  (forall e, In e (build_price_data hpi_data) ->
     In (property_type e) channel_types /\
     0 <= average_price e /\
     exists row, In row hpi_data /\
                 date e = formatted_date_of (refMonth row)) /\
  (length (build_price_data hpi_data) <= 5 * length hpi_data)%nat.
Proof.
  unfold build_price_data. split.
  - intros e H. apply fold_add_row_in in H as [[]|(row & Hin & Hd & Ht & Hp & _)].
    split; [exact Ht|]. split; [exact Hp|]. now exists row.
  - assert (H : forall rows price_data,
               (length (fold_left add_row rows price_data)
                <= 5 * length rows + length price_data)%nat).
    { induction rows as [|row rows IH]; intros price_data;
        cbn [fold_left length]; [lia|].
      etransitivity; [apply IH|].
      pose proof (add_row_length price_data row). lia. }
    specialize (H hpi_data []). cbn [length] in H. lia.
Qed.

Lemma price_series_entries_witness :
  In "Detached" channel_types /\
  0 <= 300000 /\
  exists row, In row [detached_row 2024 1 300000] /\
              DateYMD 2024 1 1 = formatted_date_of (refMonth row).
Proof.
  apply (proj1 (price_series_entries [detached_row 2024 1 300000])
           (PriceEntry (DateYMD 2024 1 1) 300000 "Detached" None)).
  left. reflexivity.
Defined.

(** *** The summary *)

Lemma filter_none {A} (f : A -> bool) (l : list A) :
  (forall x, In x l -> f x = false) -> List.filter f l = [].
Proof.
  induction l as [|x l IH]; intros H; cbn [List.filter]; [reflexivity|].
  rewrite (H x (or_introl eq_refl)). apply IH. intros y Hy. apply H.
  now right.
Qed.

Lemma parse_all_raises (ds : list date_field) (s : string) :
  In (DateRaw s) ds -> exists e, parse_all ds = Raise e.
Proof.
  induction ds as [|d ds IH]; intros H; [destruct H|].
  cbn [parse_all]. destruct H as [->|H]; [cbn; eauto|].
  destruct (strptime_ymd d) as [p|e]; cbn [res_bind]; [|eauto].
  destruct (IH H) as [e ->]. cbn. eauto.
Qed.

(** X24: rows without a positive average price never give a summary,
    even when they carry prices for the other property types: the
    result is an error value. *)
Theorem no_average_no_summary (hpi_data : list hpi_row) :
  (forall row, In row hpi_data ->
     ~ (0 < price_or_zero (averagePrice row))%Q) ->
  exists msg, get_uk_house_price_index hpi_data = ErrorResult msg.
Proof.
  intros Hnone. unfold get_uk_house_price_index.
  destruct hpi_data as [|row0 rows]; [eauto|].
  set (hpi_data := row0 :: rows) in *.
  destruct (build_price_data hpi_data) as [|e0 price_data] eqn:Hb; [eauto|].
  assert (Hfilter : List.filter is_average (e0 :: price_data) = []).
  { apply filter_none. intros e He. rewrite <- Hb in He.
    unfold build_price_data in He.
    apply fold_add_row_in in He as [[]|(row & Hin & _ & _ & _ & Havg)].
    unfold is_average. destruct (String.eqb_spec (property_type e) "Average")
      as [E|E]; [|reflexivity].
    destruct (Hnone row Hin (Havg E)). }
  unfold yearly_change. rewrite Hfilter. cbn. eauto.
Qed.

Lemma no_average_no_summary_witness :
  exists msg,
    get_uk_house_price_index
      [detached_row 2024 1 300000; detached_row 2024 2 310000]
    = ErrorResult msg.
Proof.
  apply (no_average_no_summary
           [detached_row 2024 1 300000; detached_row 2024 2 310000]).
  intros row [<-|[<-|[]]]; cbn; lra.
Defined.

(** X25: one row whose month [strptime] rejects and whose average price
    is positive costs the whole summary: its entry's date cannot be read
    back, and the result is the error value of the [except] clause,
    whatever the other rows are. *)
Theorem unparsed_month_no_summary (hpi_data : list hpi_row) (row : hpi_row)
  (date_str : string) :
  In row hpi_data ->
  refMonth row = MonthUnparsed date_str ->
  (0 < price_or_zero (averagePrice row))%Q ->
  exists e,
    get_uk_house_price_index hpi_data
    = ErrorResult ("Failed to get UK House Price Index data: " +:+ e).
Proof.
  intros Hin Hmonth Hpos.
  assert (Hentry : forall rows price_data,
             In row rows ->
             exists e, In e (fold_left add_row rows price_data) /\
                       date e = formatted_date_of (refMonth row) /\
                       property_type e = "Average").
  { induction rows as [|r rows IH]; intros price_data Hr; [destruct Hr|].
    cbn [fold_left]. destruct Hr as [->|Hr]; [|now apply IH].
    destruct (add_channel_present price_data
                (formatted_date_of (refMonth row)) "Average"
                (price_or_zero (averagePrice row))
                (percentageAnnualChange row) Hpos) as (e & He & Hd & Ht).
    exists e. split; [|auto]. apply fold_add_row_incl.
    unfold add_row. cbv zeta. do 4 apply add_channel_incl. exact He. }
  destruct (Hentry hpi_data [] Hin) as (e & He & Hd & Ht).
  fold (build_price_data hpi_data) in He.
  unfold get_uk_house_price_index.
  destruct hpi_data as [|row0 rows]; [destruct Hin|].
  set (hpi_data := row0 :: rows) in *.
  destruct (build_price_data hpi_data) as [|e0 price_data] eqn:Hb;
    [destruct He|].
  rewrite Hmonth in Hd. cbn [formatted_date_of] in Hd.
  destruct (parse_all_raises
              (map date (List.filter is_average (e0 :: price_data)))
              (if is_substring "-" date_str then date_str +:+ "-01"
               else date_str)) as [msg Hmsg].
  { rewrite <- Hd. apply in_map. apply filter_In. split; [exact He|].
    unfold is_average. rewrite Ht. reflexivity. }
  exists msg. unfold yearly_change. rewrite Hmsg. reflexivity.
Qed.

Lemma unparsed_month_no_summary_witness :
  exists e,
    get_uk_house_price_index
      [average_row 2023 1 250000; unparsed_row "2023-Q1" 260000;
       average_row 2024 1 275000]
    = ErrorResult ("Failed to get UK House Price Index data: " +:+ e).
Proof.
  apply (unparsed_month_no_summary
           [average_row 2023 1 250000; unparsed_row "2023-Q1" 260000;
            average_row 2024 1 275000]
           (unparsed_row "2023-Q1" 260000) "2023-Q1").
  - right. left. reflexivity.
  - reflexivity.
  - cbn. lra.
Defined.

End PropertyServiceProps.
